(** * pisa.stages.pid.param: the parameterised PID stage

    A shallow embedding of [src/pisa/stages/pid/param.py] (class [param])
    and the properties of its transform construction, parameter lookup,
    binning validation, caching loader and output recombination.

    Conventions of the embedding:
    - Python strings are [string]; a [dict] (or [OrderedDict]) is the
      association list of its items in the order [keys()] lists them;
    - numbers are rationals; the stage never does arithmetic on bin contents
      or curve values, it only moves them around;
    - a raised exception is a value of [exn]; a method that only reads
      [self] returns a [result], a method that assigns attributes of [self]
      returns the new [self] next to its [result];
    - numpy arrays are a shape and a row-major data buffer. *)

From Stdlib Require Import String Ascii List Bool Arith Lia QArith.
Import ListNotations.
Close Scope Q_scope.
Open Scope string_scope.
Open Scope list_scope.
Open Scope nat_scope.

Set Implicit Arguments.
Set Warnings "-register-all".

(* ================================================================== *)
(** ** Python string builtins used by the stage *)
(* ================================================================== *)

Module PyString.

(** [sub in s] *)
Fixpoint str_in (sub s : string) : bool :=
  prefix sub s ||
  match s with
  | EmptyString => false
  | String _ s' => str_in sub s'
  end.

(** Left-to-right scan of [s.replace(old, new)] for a non-empty [old];
    [skip] counts the characters of a match still to be dropped. *)
Fixpoint replace_from (old new : string) (skip : nat) (s : string) : string :=
  match s with
  | EmptyString => EmptyString
  | String c s' =>
      match skip with
      | S k => replace_from old new k s'
      | O =>
          if prefix old s
          then new ++ replace_from old new (String.length old - 1) s'
          else String c (replace_from old new 0 s')
      end
  end.

(** With an empty [old], Python puts [new] around every character. *)
Fixpoint replace_empty (new s : string) : string :=
  match s with
  | EmptyString => new
  | String c s' => new ++ String c (replace_empty new s')
  end.

(** [s.replace(old, new)] *)
Definition str_replace (old new s : string) : string :=
  match old with
  | EmptyString => replace_empty new s
  | String _ _ => replace_from old new 0 s
  end.

(** [s.split(sep)] for a one-character separator: never an empty list. *)
Fixpoint str_split (sep : ascii) (s : string) : list string :=
  match s with
  | EmptyString => [EmptyString]
  | String c s' =>
      if Ascii.eqb c sep then EmptyString :: str_split sep s'
      else match str_split sep s' with
           | [] => [String c EmptyString]
           | w :: ws => String c w :: ws
           end
  end.

(** [parts[0]] and [parts[-1]] of a split, which is never empty. *)
Definition first_part (parts : list string) : string := hd EmptyString parts.
Definition last_part (parts : list string) : string := last parts EmptyString.

(** [x in l] and [l1 == l2] on lists of strings. *)
Definition mem (x : string) (l : list string) : bool :=
  existsb (String.eqb x) l.

Fixpoint list_eqb (l1 l2 : list string) : bool :=
  match l1, l2 with
  | [], [] => true
  | x :: l1', y :: l2' => String.eqb x y && list_eqb l1' l2'
  | _, _ => false
  end.

End PyString.
Import PyString.

(* ================================================================== *)
(** ** Python objects, exceptions and results *)
(* ================================================================== *)

(** What a decoded parameterisation resource (JSON) or an inline mapping
    can hold. *)
Inductive pyobj : Type :=
| PyNone
| PyBool (b : bool)
| PyNum (q : Q)
| PyStr (s : string)
| PyList (l : list pyobj)
| PyDict (items : list (string * pyobj)).

Inductive pytype : Type := TNone | TBool | TNum | TStr | TList | TDict.

(** [type(o)] *)
Definition type_of (o : pyobj) : pytype :=
  match o with
  | PyNone => TNone
  | PyBool _ => TBool
  | PyNum _ => TNum
  | PyStr _ => TStr
  | PyList _ => TList
  | PyDict _ => TDict
  end.

(** [d.keys()] and [d[k]] on the items of a dict. *)
Definition keys (items : list (string * pyobj)) : list string :=
  map fst items.

Fixpoint getitem (items : list (string * pyobj)) (k : string) : option pyobj :=
  match items with
  | [] => None
  | (k', v) :: rest => if String.eqb k k' then Some v else getitem rest k
  end.

(** The text of an exception: one constructor per [raise] of the stage (and
    per numpy failure it can run into), carrying the interpolated values. *)
Inductive message : Type :=
(* validate_binning *)
| MissingEnergy
| AzimuthPresent
| UnexpectedFirstDim (name : string)
(* find_energy_param *)
| BareFlavNotInKeys (nu : string) (available : list string)
| NotJoinedFlav (flavstr : string)
| FlavNotInKeys (flavstr : string) (available : list string)
(* _compute_nominal_transforms *)
| ParamNotDict (got : pytype)
| ChannelMismatch (expected : list string) (got : list string)
| ParamNotString (got : pytype)
(* numpy *)
| ReshapeSize (size : nat) (newshape : list nat)
| StackShapes (shape1 shape2 : list nat)
| RollaxisAxis (axis bound : nat)
| RollaxisStart (start bound : nat).

Inductive exn : Type :=
| ValueError (m : message)
| TypeError (m : message)
| AttributeError (obj attr : string)
| KeyError (key : string)
| UnboundLocalError (var : string)
| IndexError
| EvalError (expr : string)
| External (what : string).

Inductive result (A : Type) : Type :=
| Ok (a : A)
| Raise (e : exn).
Arguments Ok {A} a.
Arguments Raise {A} e.

Definition bind {A B} (r : result A) (k : A -> result B) : result B :=
  match r with
  | Ok a => k a
  | Raise e => Raise e
  end.

Declare Scope py_scope.
Delimit Scope py_scope with py.
Notation "x <- c1 ;; c2" := (bind c1 (fun x => c2))
  (at level 100, c1 at next level, right associativity) : py_scope.
Notation "c1 ;;; c2" := (bind c1 (fun _ => c2))
  (at level 100, right associativity) : py_scope.
Open Scope py_scope.

Definition succeeds {A} (r : result A) : Prop := exists a, r = Ok a.

(* ================================================================== *)
(** ** numpy arrays *)
(* ================================================================== *)

Module Numpy.

(** An array is its shape and its elements in row-major order. *)
Record ndarray : Type := mk_ndarray { shape : list nat; data : list Q }.

Definition size_of (s : list nat) : nat := fold_right Nat.mul 1 s.
Definition ndim (a : ndarray) : nat := length (shape a).

(** A well-formed array holds exactly as many elements as its shape says. *)
Definition well_formed (a : ndarray) : Prop :=
  length (data a) = size_of (shape a).

(** The 1-D array of a sequence. *)
Definition array1 (l : list Q) : ndarray :=
  {| shape := [length l]; data := l |}.

(** Flat position of a multi-index, and whether it lies inside the shape. *)
Fixpoint ravel (s idx : list nat) : nat :=
  match s, idx with
  | _ :: s', i :: idx' => i * size_of s' + ravel s' idx'
  | _, _ => 0
  end.

Fixpoint in_bounds (s idx : list nat) : bool :=
  match s, idx with
  | [], [] => true
  | n :: s', i :: idx' => (i <? n) && in_bounds s' idx'
  | _, _ => false
  end.

(** [a[i0, i1, ...]] with a full multi-index. *)
Definition item (a : ndarray) (idx : list nat) : option Q :=
  if in_bounds (shape a) idx
  then nth_error (data a) (ravel (shape a) idx)
  else None.

(** All the multi-indices of a shape, in row-major order. *)
Fixpoint indices (s : list nat) : list (list nat) :=
  match s with
  | [] => [[]]
  | n :: s' => flat_map (fun i => map (cons i) (indices s')) (seq 0 n)
  end.

(** [np.repeat(a, n)]: the flattened elements, each one [n] times. *)
Definition np_repeat (a : ndarray) (n : nat) : ndarray :=
  array1 (flat_map (fun x => repeat x n) (data a)).

(** [np.reshape(a, newshape)] *)
Definition np_reshape (a : ndarray) (newshape : list nat) : result ndarray :=
  if length (data a) =? size_of newshape
  then Ok {| shape := newshape; data := data a |}
  else Raise (ValueError (ReshapeSize (length (data a)) newshape)).

Fixpoint index_of (m : nat) (l : list nat) : nat :=
  match l with
  | [] => 0
  | x :: l' => if x =? m then 0 else S (index_of m l')
  end.

(** The index into [a] that position [idx] of [a.transpose(axes)] reads:
    axis [k] of the result is axis [axes[k]] of [a]. *)
Definition source_index (axes idx : list nat) : list nat :=
  map (fun m => nth (index_of m axes) idx 0) (seq 0 (length axes)).

(** [a.transpose(axes)] *)
Definition transpose (axes : list nat) (a : ndarray) : ndarray :=
  let s' := map (fun k => nth k (shape a) 0) axes in
  {| shape := s';
     data := map (fun idx => nth (ravel (shape a) (source_index axes idx))
                                 (data a) 0%Q)
                 (indices s') |}.

(** [a.T] reverses the axes. *)
Definition T (a : ndarray) : ndarray := transpose (rev (seq 0 (ndim a))) a.

Fixpoint shape_eqb (s1 s2 : list nat) : bool :=
  match s1, s2 with
  | [], [] => true
  | x :: s1', y :: s2' => (x =? y) && shape_eqb s1' s2'
  | _, _ => false
  end.

(** [np.array([a, b])] of two arrays of one shape: a new leading axis of
    size 2.  (With unequal shapes numpy gives no numeric array; the stage
    then fails in [rollaxis] or here, depending on the numpy version.) *)
Definition np_array2 (a b : ndarray) : result ndarray :=
  if shape_eqb (shape a) (shape b)
  then Ok {| shape := 2 :: shape a; data := data a ++ data b |}
  else Raise (ValueError (StackShapes (shape a) (shape b))).

(** [l.remove(x)] (first occurrence) and [l.insert(i, x)]. *)
Fixpoint list_remove (x : nat) (l : list nat) : list nat :=
  match l with
  | [] => []
  | y :: l' => if y =? x then l' else y :: list_remove x l'
  end.

Definition list_insert (i x : nat) (l : list nat) : list nat :=
  firstn i l ++ x :: skipn i l.

(** [np.rollaxis(a, axis, start)] for non-negative [axis] and [start]:
<<
    n = a.ndim
    if not (0 <= axis < n): raise ValueError
    if not (0 <= start < n + 1): raise ValueError
    if axis < start: start -= 1
    if axis == start: return a
    axes = list(range(0, n)); axes.remove(axis); axes.insert(start, axis)
    return a.transpose(axes)
>> *)
Definition np_rollaxis (a : ndarray) (axis start : nat) : result ndarray :=
  let n := ndim a in
  if negb (axis <? n) then Raise (ValueError (RollaxisAxis axis n))
  else if negb (start <? n + 1) then Raise (ValueError (RollaxisStart start (n + 1)))
  else
    let start := if axis <? start then start - 1 else start in
    if axis =? start then Ok a
    else Ok (transpose (list_insert start axis (list_remove axis (seq 0 n))) a).

End Numpy.
Import Numpy.

(* ================================================================== *)
(** ** Framework objects the stage handles *)
(* ================================================================== *)

(** The classes below belong to the framework ([pisa.core], [pisa.utils]);
    their code is not part of the stage.  Each is modelled by what the
    stage reads of it or hands to it. *)

(** Modelled from the spec: [pisa.core.binning.OneDimBinning] is missing;
    one named axis with its bin edges and its weighted bin centres. *)
Record OneDimBinning : Type := mk_dim {
  name : string;
  bin_edges : list Q;
  weighted_centers : list Q
}.

(** Modelled from the spec: [pisa.core.binning.MultiDimBinning] is missing;
    the axes in their declared order. *)
Definition MultiDimBinning : Type := list OneDimBinning.

(** Modelled from the spec: [MultiDimBinning.names] is missing; the names
    of the axes in declared order. *)
Definition names (b : MultiDimBinning) : list string := map name b.

(** Modelled from the spec: [OneDimBinning.num_bins] is missing; edges
    span one bin fewer than there are edges. *)
Definition num_bins (d : OneDimBinning) : nat := length (bin_edges d) - 1.

(** Modelled from the spec: [MultiDimBinning.shape] is missing; the number
    of bins of each axis, in declared order. *)
Definition binning_shape (b : MultiDimBinning) : list nat := map num_bins b.

(** Modelled from the spec: the access [binning.<name>] and
    [binning['<name>']] of [MultiDimBinning] is missing; the axis of that
    name. *)
Fixpoint getdim (b : MultiDimBinning) (n : string) : result OneDimBinning :=
  match b with
  | [] => Raise (AttributeError "MultiDimBinning" n)
  | d :: b' => if String.eqb (name d) n then Ok d else getdim b' n
  end.

(** Modelled from the spec: [MultiDimBinning.__add__] is missing; the
    binning with one more axis after the declared ones. *)
Definition binning_add (b : MultiDimBinning) (d : OneDimBinning)
  : MultiDimBinning :=
  b ++ [d].

(** Modelled from the spec: [pisa.utils.flavInt.NuFlavIntGroup] is missing;
    a named set of flavor/interaction identifiers: what [str(group)] gives
    and the identifiers for which [x in group] holds. *)
Record NuFlavIntGroup : Type := mk_group {
  group_str : string;
  flavints : list string
}.

Definition group_contains (g : NuFlavIntGroup) (x : string) : bool :=
  mem x (flavints g).

(** Modelled from the spec: [pisa.core.transform.BinnedTensorTransform] is
    missing; a mapping from one named input to one named output carrying a
    weight array, with the five arguments the stage constructs it from. *)
Record BinnedTensorTransform : Type := mk_xform {
  xform_input_names : string;
  xform_output_name : string;
  xform_input_binning : MultiDimBinning;
  xform_output_binning : MultiDimBinning;
  xform_array : ndarray
}.

(** Modelled from the spec: [pisa.core.transform.TransformSet] is missing;
    an ordered collection of transforms. *)
Record TransformSet : Type := mk_TransformSet {
  transforms : list BinnedTensorTransform
}.

(** Modelled from the spec: [pisa.core.map.Map] is missing; a named
    histogram with its binning, as [Map(name, hist, binning)] builds it. *)
Record Map : Type := mk_Map {
  map_name : string;
  map_hist : ndarray;
  map_binning : MultiDimBinning
}.

(** Modelled from the spec: [pisa.core.map.MapSet] is missing; a set of
    named histograms, as [MapSet(maps, name, tex)] builds it. *)
Record MapSet : Type := mk_MapSet {
  maps : list Map;
  mapset_name : string;
  mapset_tex : string
}.

(** Modelled from the spec: [MapSet.__getitem__] is missing; the map of
    that name. *)
Fixpoint mapset_getitem (ms : list Map) (n : string) : result Map :=
  match ms with
  | [] => Raise (KeyError n)
  | m :: ms' => if String.eqb (map_name m) n then Ok m else mapset_getitem ms' n
  end.

(* ================================================================== *)
(** ** The stage object *)
(* ================================================================== *)

(** The attributes of [self] the methods read or assign.
    [energy_param_dict] and [_energy_param_hash] do not exist before the
    first load ([None]).  [from_file_calls] is not an attribute: it logs the
    resources handed to [from_file], the stage's only read of the outside. *)
Record Stage : Type := mk_Stage {
  transform_groups : list NuFlavIntGroup;
  input_names : list string;
  output_names : list string;
  input_binning : MultiDimBinning;
  output_binning : MultiDimBinning;
  pid_energy_paramfile : pyobj;
  energy_param_dict : option pyobj;
  _energy_param_hash : option Z;
  from_file_calls : list string
}.

(** [self.output_channels = ('trck', 'cscd')], set once in [__init__]. *)
Definition output_channels : list string := ["trck"; "cscd"].

(** [self.output_binning = b] *)
Definition set_output_binning (self : Stage) (b : MultiDimBinning) : Stage :=
  {| transform_groups := transform_groups self;
     input_names := input_names self;
     output_names := output_names self;
     input_binning := input_binning self;
     output_binning := b;
     pid_energy_paramfile := pid_energy_paramfile self;
     energy_param_dict := energy_param_dict self;
     _energy_param_hash := _energy_param_hash self;
     from_file_calls := from_file_calls self |}.

(** [self.energy_param_dict = d; self._energy_param_hash = h] *)
Definition set_energy_param (self : Stage) (d : pyobj) (h : Z) : Stage :=
  {| transform_groups := transform_groups self;
     input_names := input_names self;
     output_names := output_names self;
     input_binning := input_binning self;
     output_binning := output_binning self;
     pid_energy_paramfile := pid_energy_paramfile self;
     energy_param_dict := Some d;
     _energy_param_hash := Some h;
     from_file_calls := from_file_calls self |}.

Definition log_from_file (self : Stage) (resource : string) : Stage :=
  {| transform_groups := transform_groups self;
     input_names := input_names self;
     output_names := output_names self;
     input_binning := input_binning self;
     output_binning := output_binning self;
     pid_energy_paramfile := pid_energy_paramfile self;
     energy_param_dict := energy_param_dict self;
     _energy_param_hash := _energy_param_hash self;
     from_file_calls := from_file_calls self ++ [resource] |}.

(** A Python callable of one argument as the stage uses it: applied to the
    1-D array of energy bin centres it returns some numeric value, or
    raises.  What it returns is up to the expression: an array of any
    shape, or a plain number, which is the array without axes (shape [[]],
    one element).  The stage hands the value on as it is. *)
Definition callable : Type := list Q -> result ndarray.

(** The plain number [x], as the array without axes. *)
Definition scalar (x : Q) : ndarray := {| shape := []; data := [x] |}.

(** What the stage calls but does not define. *)
Class Framework : Type := {
  (** the builtin [eval] on a parameterisation string, taken to depend on
      the string alone: the strings are closed function definitions
      ("lambda E: ...") over the names the module imports *)
  py_eval : string -> result callable;
  (** [pisa.utils.hash.hash_obj] *)
  hash_obj : pyobj -> Z;
  (** [pisa.utils.fileio.from_file] *)
  from_file : string -> result pyobj;
  (** the weighted centres [OneDimBinning(name=.., bin_edges=..)] derives *)
  centers_of_edges : list Q -> list Q;
  (** [Stage.get_outputs] of the base class: computes and applies the
      transforms *)
  base_get_outputs : Stage -> option MapSet -> Stage * result MapSet
}.

(* ================================================================== *)
(** ** The methods of [param] *)
(* ================================================================== *)

Section Methods.

Context `{FW : Framework}.

(** [d[k]], raising [KeyError] on a missing key. *)
Definition dict_getitem (items : list (string * pyobj)) (k : string)
  : result pyobj :=
  match getitem items k with
  | Some v => Ok v
  | None => Raise (KeyError k)
  end.

(** [param.validate_binning] (lines 198-218). *)
Definition validate_binning (self : Stage) : result unit :=
  if negb (mem "reco_energy" (names (input_binning self)))
  then Raise (ValueError MissingEnergy)
  else if mem "reco_azimuth" (names (input_binning self))
  then Raise (ValueError AzimuthPresent)
  else match names (input_binning self) with
       | [] => Raise IndexError
       | first :: _ =>
           if negb (String.eqb first "reco_energy")
              && negb (String.eqb first "reco_coszen")
           then Raise (ValueError (UnexpectedFirstDim first))
           else Ok tt
       end.

(** [param.load_pid_energy_param] (lines 225-238). *)
Definition load_pid_energy_param (self : Stage) (pid_energy_param : pyobj)
  : Stage * result unit :=
  let this_hash := hash_obj pid_energy_param in
  if match _energy_param_hash self with
     | Some h => Z.eqb this_hash h
     | None => false
     end
  then (self, Ok tt)
  else
    match pid_energy_param with
    | PyStr resource =>
        let self := log_from_file self resource in
        match from_file resource with
        | Ok energy_param_dict =>
            (set_energy_param self energy_param_dict this_hash, Ok tt)
        | Raise e => (self, Raise e)
        end
    | PyDict _ => (set_energy_param self pid_energy_param this_hash, Ok tt)
    | _ => (self, Raise (UnboundLocalError "energy_param_dict"))
    end.

(** [param.find_energy_param] (lines 240-270). *)
Definition find_energy_param (self : Stage) (flavstr : string)
  : result pyobj :=
  match energy_param_dict self with
  | None => Raise (AttributeError "param" "energy_param_dict")
  | Some (PyDict items) =>
      if negb (mem flavstr (keys items)) then
        if str_in "+" flavstr then
          let nubar := last_part (str_split "+"%char flavstr) in
          let nu := first_part (str_split "+"%char flavstr) in
          if String.eqb (str_replace "bar" "" nubar) nu then
            if mem nu (keys items) then dict_getitem items nu
            else Raise (ValueError (BareFlavNotInKeys nu (keys items)))
          else Raise (ValueError (NotJoinedFlav flavstr))
        else Raise (ValueError (FlavNotInKeys flavstr (keys items)))
      else dict_getitem items flavstr
  | Some _ => Raise (AttributeError "energy_param_dict" "keys")
  end.

(** [param.suffix_channel] (lines 384-385). *)
Definition suffix_channel (flavint channel : string) : string :=
  (flavint ++ "_" ++ channel)%string.

(** Lines 307-317: the parameterisation string becomes a callable. *)
Definition evaluate_expression (pid_param : pyobj) : result callable :=
  match pid_param with
  | PyStr expr =>
      let expr :=
        if str_in "scipy.stats.norm" expr
        then str_replace "scipy.stats.norm" "norm" expr
        else expr in
      py_eval expr
  | _ => Raise (TypeError (ParamNotString (type_of pid_param)))
  end.

(** Lines 319-331: the curve at the energy centres, brought to the
    dimensionality of the input binning. *)
Definition curve_array (self : Stage) (ecen : list Q) (pid_param : callable)
  : result ndarray :=
  pid1d <- pid_param ecen ;;
  if mem "reco_coszen" (names (input_binning self)) then
    cz <- getdim (input_binning self) "reco_coszen" ;;
    let czcen := weighted_centers cz in
    pid2d <- np_reshape (np_repeat pid1d (length czcen))
                        [length ecen; length czcen] ;;
    match names (input_binning self) with
    | [] => Raise IndexError
    | first :: _ =>
        if String.eqb first "reco_coszen" then Ok (T pid2d) else Ok pid2d
    end
  else Ok pid1d.

(** Lines 337-343: the transform of one input for one channel. *)
Definition make_xform (self : Stage) (sig : string) (xform_array : ndarray)
    (input_name : string) : BinnedTensorTransform :=
  {| xform_input_names := input_name;
     xform_output_name := suffix_channel input_name sig;
     xform_input_binning := input_binning self;
     xform_output_binning := input_binning self;
     xform_array := xform_array |}.

(** Lines 334-344: one transform per input name of the group, appended to
    [nominal_transforms]. *)
Fixpoint inputs_loop (self : Stage) (flav_int_group : NuFlavIntGroup)
    (sig : string) (xform_array : ndarray) (inputs : list string)
    (nominal_transforms : list BinnedTensorTransform)
  : list BinnedTensorTransform :=
  match inputs with
  | [] => nominal_transforms
  | input_name :: rest =>
      if negb (group_contains flav_int_group input_name)
      then inputs_loop self flav_int_group sig xform_array rest
             nominal_transforms
      else inputs_loop self flav_int_group sig xform_array rest
             (nominal_transforms
              ++ [make_xform self sig xform_array input_name])
  end.

(** Lines 306-331: the array of one channel of an entry. *)
Definition channel_curve (self : Stage) (ecen : list Q)
    (energy_param : list (string * pyobj)) (sig : string) : result ndarray :=
  pid_param <- dict_getitem energy_param sig ;;
  pid_param <- evaluate_expression pid_param ;;
  curve_array self ecen pid_param.

(** Lines 305-344: the loop over the output channels of one group. *)
Fixpoint channels_loop (self : Stage) (ecen : list Q)
    (flav_int_group : NuFlavIntGroup) (energy_param : list (string * pyobj))
    (channels : list string)
    (nominal_transforms : list BinnedTensorTransform)
  : result (list BinnedTensorTransform) :=
  match channels with
  | [] => Ok nominal_transforms
  | sig :: rest =>
      xform_array <- channel_curve self ecen energy_param sig ;;
      channels_loop self ecen flav_int_group energy_param rest
        (inputs_loop self flav_int_group sig xform_array (input_names self)
           nominal_transforms)
  end.

(** Lines 288-304: the entry of a group, checked to be a dict with the
    output channels as its keys. *)
Definition group_energy_param (self : Stage) (flav_int_group : NuFlavIntGroup)
  : result (list (string * pyobj)) :=
  energy_param <- find_energy_param self (group_str flav_int_group) ;;
  match energy_param with
  | PyDict items =>
      if negb (list_eqb output_channels (keys items))
      then Raise (ValueError (ChannelMismatch output_channels (keys items)))
      else Ok items
  | _ => Raise (TypeError (ParamNotDict (type_of energy_param)))
  end.

(** Lines 285-344: the loop over the transform groups. *)
Fixpoint groups_loop (self : Stage) (ecen : list Q)
    (groups : list NuFlavIntGroup)
    (nominal_transforms : list BinnedTensorTransform)
  : result (list BinnedTensorTransform) :=
  match groups with
  | [] => Ok nominal_transforms
  | flav_int_group :: rest =>
      energy_param <- group_energy_param self flav_int_group ;;
      nominal_transforms <-
        channels_loop self ecen flav_int_group energy_param output_channels
          nominal_transforms ;;
      groups_loop self ecen rest nominal_transforms
  end.

(** [param._compute_nominal_transforms] (lines 273-346). *)
Definition _compute_nominal_transforms (self : Stage)
  : Stage * result TransformSet :=
  match getdim (input_binning self) "reco_energy" with
  | Raise e => (self, Raise e)
  | Ok reco_energy =>
      let ecen := weighted_centers reco_energy in
      let (self, loaded) :=
        load_pid_energy_param self (pid_energy_paramfile self) in
      match loaded with
      | Raise e => (self, Raise e)
      | Ok _ =>
          (self,
           nominal_transforms <-
             groups_loop self ecen (transform_groups self) [] ;;
           Ok {| transforms := nominal_transforms |})
      end
  end.

(** The input names a group covers, in the order of [self.input_names]. *)
Definition group_inputs (self : Stage) (g : NuFlavIntGroup) : list string :=
  filter (group_contains g) (input_names self).

(** The energy centres line 277 reads. *)
Definition energy_centers (self : Stage) : result (list Q) :=
  reco_energy <- getdim (input_binning self) "reco_energy" ;;
  Ok (weighted_centers reco_energy).

(** [OneDimBinning(name='pid', bin_edges=[0,1,2])] (line 355). *)
Definition dummy_pid : OneDimBinning :=
  {| name := "pid";
     bin_edges := [0%Q; 1%Q; 2%Q];
     weighted_centers := centers_of_edges [0%Q; 1%Q; 2%Q] |}.

(** Lines 362-366: the two channel histograms of one output name stacked
    along a new first axis, (cscd, trck), which is then rolled back. *)
Definition recombined_map (self : Stage) (outputs : MapSet) (name : string)
  : result Map :=
  cscd <- mapset_getitem (maps outputs) (name ++ "_cscd")%string ;;
  trck <- mapset_getitem (maps outputs) (name ++ "_trck")%string ;;
  hist <- np_array2 (map_hist cscd) (map_hist trck) ;;
  hist <- np_rollaxis hist 0 3 ;;
  Ok {| map_name := name;
        map_hist := hist;
        map_binning := output_binning self |}.

(** Lines 361-366: one recombined map per output name. *)
Fixpoint recombine_loop (self : Stage) (outputs : MapSet)
    (out_names : list string) (new_maps : list Map) : result (list Map) :=
  match out_names with
  | [] => Ok new_maps
  | name :: rest =>
      new_map <- recombined_map self outputs name ;;
      recombine_loop self outputs rest (new_maps ++ [new_map])
  end.

(** [param.get_outputs] (lines 348-368). *)
Definition get_outputs (self : Stage) (inputs : option MapSet)
  : Stage * result MapSet :=
  let orig_output_binning := output_binning self in
  let self := set_output_binning self (input_binning self) in
  let (self, called) := base_get_outputs self inputs in
  match called with
  | Raise e => (self, Raise e)
  | Ok outputs =>
      let self :=
        if negb (mem "pid" (names orig_output_binning))
        then set_output_binning self (binning_add orig_output_binning dummy_pid)
        else set_output_binning self orig_output_binning in
      (self,
       new_maps <- recombine_loop self outputs (output_names self) [] ;;
       Ok {| maps := new_maps;
             mapset_name := mapset_name outputs;
             mapset_tex := mapset_tex outputs |})
  end.

End Methods.

(* ================================================================== *)
(** ** Notions the statements are phrased with *)
(* ================================================================== *)

Section Notions.

Context `{FW : Framework}.

(** Run [f] over a list, stopping at the first exception. *)
Fixpoint traverse {A B} (f : A -> result B) (l : list A) : result (list B) :=
  match l with
  | [] => Ok []
  | x :: l' => y <- f x ;; ys <- traverse f l' ;; Ok (y :: ys)
  end.

(** One pass of the loop over the groups, started on an empty list: what
    a single group contributes. *)
Definition group_transforms (self : Stage) (ecen : list Q)
    (g : NuFlavIntGroup) : result (list BinnedTensorTransform) :=
  energy_param <- group_energy_param self g ;;
  channels_loop self ecen g energy_param output_channels [].

(** The transforms one group gives with the arrays [a_trck] and [a_cscd]:
    every input of the group gets both, in this order. *)
Definition group_block (self : Stage) (g : NuFlavIntGroup)
    (a_trck a_cscd : ndarray) : list BinnedTensorTransform :=
  map (make_xform self "trck" a_trck) (group_inputs self g)
  ++ map (make_xform self "cscd" a_cscd) (group_inputs self g).

(** A transform that feeds channel [sig] of its own input. *)
Definition is_channel (sig : string) (t : BinnedTensorTransform) : bool :=
  String.eqb (xform_output_name t) (suffix_channel (xform_input_names t) sig).

(** How many transforms take input [n] to its channel [sig]. *)
Definition count_xforms (n sig : string) (ts : list BinnedTensorTransform)
  : nat :=
  length (filter (fun t => String.eqb (xform_input_names t) n
                           && is_channel sig t) ts).

(** Whether some configured group covers the input name. *)
Definition grouped (self : Stage) (n : string) : bool :=
  existsb (fun g => group_contains g n) (transform_groups self).

(** The load of the stage's own parameterisation source returns and leaves
    the mapping [d] in place. *)
Definition loads (self : Stage) (d : list (string * pyobj)) : Prop :=
  exists self1,
    load_pid_energy_param self (pid_energy_paramfile self) = (self1, Ok tt)
    /\ energy_param_dict self1 = Some (PyDict d).

(** [d[k] = v] on the items of a dict. *)
Fixpoint setitem (items : list (string * pyobj)) (k : string) (v : pyobj)
  : list (string * pyobj) :=
  match items with
  | [] => [(k, v)]
  | (k', v') :: rest =>
      if String.eqb k k' then (k, v) :: rest
      else (k', v') :: setitem rest k v
  end.

(** The mapping [d] after [d[k]['cscd'] = expr]. *)
Definition with_cscd (d : list (string * pyobj)) (k : string)
    (entry : list (string * pyobj)) (expr : string)
  : list (string * pyobj) :=
  setitem d k (PyDict (setitem entry "cscd" (PyStr expr))).

(** Two stages that differ at most in what concerns the parameterisation
    and its cache. *)
Definition same_setup (s1 s2 : Stage) : Prop :=
  transform_groups s1 = transform_groups s2 /\
  input_names s1 = input_names s2 /\
  input_binning s1 = input_binning s2.

(** Modelled from the spec: the error kinds of its section 7.  The stage
    raises Python's [ValueError] and [TypeError] throughout; what an error
    reports decides its kind: a bad or missing binning axis and a
    mismatched channel set are configuration errors, a group that is not
    found and not resolvable is a lookup error, a parameterisation that is
    no expression string is a format error. *)
Inductive error_kind : Type :=
| ConfigurationError
| LookupError
| ParameterFormatError
| OtherError.

Definition message_kind (m : message) : error_kind :=
  match m with
  | MissingEnergy | AzimuthPresent | UnexpectedFirstDim _ => ConfigurationError
  | ChannelMismatch _ _ => ConfigurationError
  | BareFlavNotInKeys _ _ | NotJoinedFlav _ | FlavNotInKeys _ _ => LookupError
  | ParamNotString _ => ParameterFormatError
  | _ => OtherError
  end.

(** The method raises the stage's [ValueError], with a report of kind [k]. *)
Definition raises {A} (k : error_kind) (r : result A) : Prop :=
  exists m, r = Raise (ValueError m) /\ message_kind m = k.



(** The output binning [get_outputs] settles on for a requested one. *)
Definition final_output_binning (requested : MultiDimBinning)
  : MultiDimBinning :=
  if mem "pid" (names requested) then requested
  else binning_add requested dummy_pid.

(** Both channel maps of [name] are among [outputs], with 2-D histograms
    of one shape. *)
Definition recombinable (outputs : MapSet) (name : string) : Prop :=
  exists cscd trck,
    mapset_getitem (maps outputs) (name ++ "_cscd")%string = Ok cscd /\
    mapset_getitem (maps outputs) (name ++ "_trck")%string = Ok trck /\
    shape (map_hist cscd) = shape (map_hist trck) /\
    ndim (map_hist cscd) = 2.

(** [self.input_names = l] *)
Definition set_input_names (self : Stage) (l : list string) : Stage :=
  {| transform_groups := transform_groups self;
     input_names := l;
     output_names := output_names self;
     input_binning := input_binning self;
     output_binning := output_binning self;
     pid_energy_paramfile := pid_energy_paramfile self;
     energy_param_dict := energy_param_dict self;
     _energy_param_hash := _energy_param_hash self;
     from_file_calls := from_file_calls self |}.

End Notions.

(* ================================================================== *)
(** ** Scenarios used to exercise the statements *)
(* ================================================================== *)

Module Demo.

(** A small evaluator: five expressions with their Python meaning on the
    array [E]; anything else does not evaluate.  The first three give an
    array, one value per element of [E]; the last two give a plain number
    whatever [E] is. *)
Definition demo_eval (expr : string) : result callable :=
  if String.eqb expr "lambda E: 0.9 + 0*E"
  then Ok (fun E => Ok (array1 (map (fun _ => 0.9%Q) E)))
  else if String.eqb expr "lambda E: 0.1 + 0*E"
  then Ok (fun E => Ok (array1 (map (fun _ => 0.1%Q) E)))
  else if String.eqb expr "lambda E: E"
  then Ok (fun E => Ok (array1 E))
  else if String.eqb expr "lambda E: 0.9"
  then Ok (fun _ => Ok (scalar 0.9%Q))
  else if String.eqb expr "lambda E: 0.1"
  then Ok (fun _ => Ok (scalar 0.1%Q))
  else Raise (EvalError expr).

Definition numu_entry : pyobj :=
  PyDict [("trck", PyStr "lambda E: 0.9 + 0*E");
          ("cscd", PyStr "lambda E: 0.1 + 0*E")].

Definition demo_param_dict : pyobj :=
  PyDict [("numu_cc", numu_entry); ("nu", numu_entry)].

Definition demo_from_file (resource : string) : result pyobj :=
  if String.eqb resource "pid/pid_energy_param.json"
  then Ok demo_param_dict
  else Raise (External "IOError").

(** A fingerprint that tells strings from mappings and looks at sizes. *)
Definition demo_hash (o : pyobj) : Z :=
  match o with
  | PyStr s => Z.of_nat (String.length s)
  | PyDict items => (-1 - Z.of_nat (length items))%Z
  | _ => 0%Z
  end.

(** Midpoints of consecutive edges. *)
Fixpoint midpoints (edges : list Q) : list Q :=
  match edges with
  | a :: (b :: _) as rest => Qred ((a + b) / 2)%Q :: midpoints rest
  | _ => []
  end.

#[local] Instance demo_framework : Framework := {|
  py_eval := demo_eval;
  hash_obj := demo_hash;
  from_file := demo_from_file;
  centers_of_edges := midpoints;
  base_get_outputs := fun self _ =>
    (self, Ok {| maps := []; mapset_name := "pid"; mapset_tex := "" |})
|}.

Definition reco_energy : OneDimBinning :=
  {| name := "reco_energy";
     bin_edges := [0%Q; 2%Q; 18%Q; 182%Q];
     weighted_centers := [1%Q; 10%Q; 100%Q] |}.

Definition reco_coszen : OneDimBinning :=
  {| name := "reco_coszen";
     bin_edges := [(-1)%Q; 0%Q; 1%Q];
     weighted_centers := [(-0.5)%Q; 0.5%Q] |}.

Definition reco_azimuth : OneDimBinning :=
  {| name := "reco_azimuth";
     bin_edges := [0%Q; 3%Q; 6%Q];
     weighted_centers := [1.5%Q; 4.5%Q] |}.

Definition numu_cc : NuFlavIntGroup :=
  {| group_str := "numu_cc"; flavints := ["numu_cc"] |}.

(** A freshly built stage: nothing loaded yet, outputs named as inputs. *)
Definition fresh_stage (groups : list NuFlavIntGroup) (inputs : list string)
    (binning : MultiDimBinning) (source : pyobj) : Stage :=
  {| transform_groups := groups;
     input_names := inputs;
     output_names := inputs;
     input_binning := binning;
     output_binning := binning;
     pid_energy_paramfile := source;
     energy_param_dict := None;
     _energy_param_hash := None;
     from_file_calls := [] |}.

(** A stage whose parameterisation is already in place. *)
Definition loaded_stage (d : pyobj) : Stage :=
  {| transform_groups := [numu_cc];
     input_names := ["numu_cc"];
     output_names := ["numu_cc"];
     input_binning := [reco_energy];
     output_binning := [reco_energy];
     pid_energy_paramfile := d;
     energy_param_dict := Some d;
     _energy_param_hash := Some (demo_hash d);
     from_file_calls := [] |}.

(** The entry of [numu_entry] with its two keys stored the other way round,
    as an [OrderedDict] decoded from a resource that lists [cscd] first. *)
Definition swapped_entry : pyobj :=
  PyDict [("cscd", PyStr "lambda E: 0.1 + 0*E");
          ("trck", PyStr "lambda E: 0.9 + 0*E")].

Definition swapped_stage : Stage :=
  fresh_stage [numu_cc] ["numu_cc"] [reco_energy]
    (PyDict [("numu_cc", swapped_entry)]).

(** The end-to-end scenario: one group, one input, energy-only binning. *)
Definition numu_stage : Stage :=
  fresh_stage [numu_cc] ["numu_cc"] [reco_energy]
    (PyDict [("numu_cc", numu_entry)]).

(** Two overlapping groups and three inputs: [numu_cc] is in both groups,
    [nue_cc] in one, [muons] in none. *)
Definition nu_group : NuFlavIntGroup :=
  {| group_str := "nu"; flavints := ["numu_cc"; "nue_cc"] |}.

Definition overlap_stage : Stage :=
  fresh_stage [numu_cc; nu_group] ["numu_cc"; "nue_cc"; "muons"]
    [reco_energy] demo_param_dict.

(** [overlap_stage] after the cascade expression of the entry [numu_cc]
    has been rewritten to the identity. *)
Definition numu_items : list (string * pyobj) :=
  [("trck", PyStr "lambda E: 0.9 + 0*E");
   ("cscd", PyStr "lambda E: 0.1 + 0*E")].

Definition demo_items : list (string * pyobj) :=
  [("numu_cc", numu_entry); ("nu", numu_entry)].

Definition rewritten_stage : Stage :=
  fresh_stage [numu_cc; nu_group] ["numu_cc"; "nue_cc"; "muons"]
    [reco_energy]
    (PyDict (with_cscd demo_items "numu_cc" numu_items "lambda E: E")).

(** The base class at work: compute the transforms, weight each input
    histogram bin by bin with each of its transforms. *)
Definition weight (hist w : ndarray) : ndarray :=
  {| shape := shape hist;
     data := map (fun p => Qred (fst p * snd p)%Q)
                 (combine (data hist) (data w)) |}.

Definition apply_xform (inputs : list Map) (t : BinnedTensorTransform)
  : list Map :=
  match mapset_getitem inputs (xform_input_names t) with
  | Ok m => [ {| map_name := xform_output_name t;
                 map_hist := weight (map_hist m) (xform_array t);
                 map_binning := xform_output_binning t |} ]
  | Raise _ => []
  end.

Definition apply_transforms (self : Stage) (inputs : option MapSet)
  : Stage * result MapSet :=
  match inputs with
  | None => (self, Raise (External "no inputs"))
  | Some ms =>
      let (self1, computed) := _compute_nominal_transforms self in
      match computed with
      | Ok T =>
          (self1,
           Ok {| maps := flat_map (apply_xform (maps ms)) (transforms T);
                 mapset_name := mapset_name ms;
                 mapset_tex := mapset_tex ms |})
      | Raise e => (self1, Raise e)
      end
  end.

Definition pipeline_framework : Framework := {|
  py_eval := demo_eval;
  hash_obj := demo_hash;
  from_file := demo_from_file;
  centers_of_edges := midpoints;
  base_get_outputs := apply_transforms
|}.

(** Event counts of [numu_cc] in the three energy bins. *)
Definition energy_inputs : MapSet :=
  {| maps := [ {| map_name := "numu_cc";
                  map_hist := array1 [10%Q; 20%Q; 30%Q];
                  map_binning := [reco_energy] |} ];
     mapset_name := "reco"; mapset_tex := "reco" |}.

(** The same stage on energy and zenith, with counts in 3 x 2 bins. *)
Definition plane_stage : Stage :=
  fresh_stage [numu_cc] ["numu_cc"] [reco_energy; reco_coszen]
    (PyDict [("numu_cc", numu_entry)]).

Definition plane_inputs : MapSet :=
  {| maps := [ {| map_name := "numu_cc";
                  map_hist := {| shape := [3; 2];
                                 data := [10%Q; 20%Q; 30%Q;
                                          40%Q; 50%Q; 60%Q] |};
                  map_binning := [reco_energy; reco_coszen] |} ];
     mapset_name := "reco"; mapset_tex := "reco" |}.

(** Channel histograms over three axes (2 x 2 x 3), as a binning with a
    further axis would give them. *)
Definition cube (base : Q) : ndarray :=
  {| shape := [2; 2; 3];
     data := map (fun i => (base + inject_Z (Z.of_nat i))%Q) (seq 0 12) |}.

(** A caller that declares its own classification axis. *)
Definition declared_pid : OneDimBinning :=
  {| name := "pid";
     bin_edges := [0%Q; 0.5%Q; 1%Q];
     weighted_centers := [0.25%Q; 0.75%Q] |}.

Definition declared_stage : Stage :=
  set_output_binning plane_stage [reco_energy; reco_coszen; declared_pid].

(** The scenario with the constant functions written as such. *)
Definition constant_stage : Stage :=
  fresh_stage [numu_cc] ["numu_cc"] [reco_energy]
    (PyDict [("numu_cc", PyDict [("trck", PyStr "lambda E: 0.9");
                                 ("cscd", PyStr "lambda E: 0.1")])]).


End Demo.

(* ================================================================== *)
(** ** Construction-time code of the stage *)
(* ================================================================== *)

Module Setup.

(** [sep.join(parts)] *)
Fixpoint str_join (sep : string) (parts : list string) : string :=
  match parts with
  | [] => EmptyString
  | [p] => p
  | p :: rest => (p ++ sep ++ str_join sep rest)%string
  end.

(** The [input_names] argument of [__init__]: a string or a sequence. *)
Inductive names_arg : Type :=
| NamesString (s : string)
| NamesSequence (l : list string).

(** [param.__init__], lines 172-173: a string of names is stripped of
    blanks and cut at the commas; a sequence is taken as it is. *)
Definition split_input_names (input_names : names_arg) : list string :=
  match input_names with
  | NamesString s => str_split ","%char (str_replace " " "" s)
  | NamesSequence l => l
  end.

(** What [validate_params] reports: Python's [TypeError], showing the type
    it got. *)
Inductive params_exn : Type :=
| ParamfileTypeError (got : pytype).

(** [param.validate_params] (lines 387-395), on the value of the parameter
    [pid_energy_paramfile]. *)
Definition validate_params (f : pyobj) : params_exn + unit :=
  match f with
  | PyStr _ | PyDict _ => inr tt
  | _ => inl (ParamfileTypeError (type_of f))
  end.

End Setup.
Import Setup.

(* ================================================================== *)
(** ** Further notions *)
(* ================================================================== *)

Section MoreNotions.

Context `{FW : Framework}.

(** Two transforms for every input of every group. *)
Definition expected_count (self : Stage) : nat :=
  2 * list_sum (map (fun g => length (group_inputs self g))
                  (transform_groups self)).

(** The shape [rollaxis(., 0, 3)] gives the stack of two histograms of
    shape [s]: the new axis of size 2 after the first two axes of [s]. *)
Definition rolled_shape (s : list nat) : list nat :=
  firstn 2 s ++ 2 :: skipn 2 s.

End MoreNotions.

(** Further scenarios. *)
Module MoreDemo.

Import Demo.

(** A resource that decodes to a list, not to a mapping. *)
Definition list_from_file (resource : string) : result pyobj :=
  if String.eqb resource "pid/not_a_mapping.json"
  then Ok (PyList [PyStr "trck"; PyStr "cscd"])
  else Raise (External "IOError").

Definition list_framework : Framework := {|
  py_eval := demo_eval;
  hash_obj := demo_hash;
  from_file := list_from_file;
  centers_of_edges := midpoints;
  base_get_outputs := fun self _ =>
    (self, Ok {| maps := []; mapset_name := "pid"; mapset_tex := "" |})
|}.

Definition list_stage : Stage :=
  fresh_stage [numu_cc] ["numu_cc"] [reco_energy]
    (PyStr "pid/not_a_mapping.json").

(** An entry whose track parameterisation is a number. *)
Definition number_stage : Stage :=
  fresh_stage [numu_cc; nu_group] ["numu_cc"] [reco_energy]
    (PyDict [("numu_cc", numu_entry);
             ("nu", PyDict [("trck", PyNum 0.9%Q);
                            ("cscd", PyStr "lambda E: 0.1 + 0*E")])]).

(** A group the mapping knows nothing of, after one it knows. *)
Definition nutau_cc : NuFlavIntGroup :=
  {| group_str := "nutau_cc"; flavints := ["nutau_cc"] |}.

Definition missing_stage : Stage :=
  fresh_stage [numu_cc; nutau_cc] ["numu_cc"; "nutau_cc"] [reco_energy]
    (PyDict [("numu_cc", numu_entry)]).

(** Channel histograms of one name over three axes, one axis, and two. *)
Definition channel_maps (cscd trck : ndarray) : MapSet :=
  {| maps := [ {| map_name := "nu_cscd"; map_hist := cscd;
                  map_binning := [] |};
               {| map_name := "nu_trck"; map_hist := trck;
                  map_binning := [] |} ];
     mapset_name := "pid"; mapset_tex := "pid" |}.

Definition cube_outputs : MapSet := channel_maps (cube 0) (cube 100).

Definition line_outputs : MapSet :=
  channel_maps (array1 [1%Q; 2%Q; 3%Q]) (array1 [9%Q; 18%Q; 27%Q]).

Definition square (a b c d : Q) : ndarray :=
  {| shape := [2; 2]; data := [a; b; c; d] |}.

Definition square_outputs : MapSet :=
  channel_maps (square 1 2 3 4) (square 5 6 7 8).

End MoreDemo.

(* ================================================================== *)
(** * Properties *)
(* ================================================================== *)

(** ** Strings and lists *)

Lemma mem_In (x : string) (l : list string) : mem x l = true <-> In x l.
Proof.
  unfold mem. rewrite existsb_exists. split.
  - intros [y [Hy Heq]]. apply String.eqb_eq in Heq. now subst.
  - intros Hin. exists x. split; [exact Hin | apply String.eqb_refl].
Qed.

Lemma mem_not_In (x : string) (l : list string) : mem x l = false <-> ~ In x l.
Proof.
  rewrite <- mem_In. destruct (mem x l); split; intros; congruence.
Qed.

Lemma list_eqb_eq (l1 l2 : list string) : list_eqb l1 l2 = true <-> l1 = l2.
Proof.
  revert l2. induction l1 as [|x l1 IH]; intros [|y l2]; simpl;
    try (split; intros; (reflexivity || discriminate)).
  rewrite andb_true_iff, String.eqb_eq, IH.
  split; [intros [-> ->]; reflexivity | intros [= -> ->]; auto].
Qed.


(** ** Binning validation *)

Section Validation.

Context `{FW : Framework}.

(** C6: [validate_binning] rejects, with a configuration error (the
    stage's [ValueError]), a binning with an azimuth axis, a binning
    without an energy axis, and a binning whose first axis is neither energy
    nor zenith; a binning with an energy axis, without azimuth axis and
    led by energy or zenith passes. *)
Theorem validate_binning_spec (self : Stage) :
  let axes := names (input_binning self) in
  (In "reco_azimuth" axes ->
     raises ConfigurationError (validate_binning self)) /\
  (~ In "reco_energy" axes ->
     raises ConfigurationError (validate_binning self)) /\
  (forall first, hd_error axes = Some first ->
     first <> "reco_energy" -> first <> "reco_coszen" ->
     raises ConfigurationError (validate_binning self)) /\
  (In "reco_energy" axes -> ~ In "reco_azimuth" axes ->
   (hd_error axes = Some "reco_energy" \/ hd_error axes = Some "reco_coszen") ->
   validate_binning self = Ok tt).
Proof.
  intros axes. unfold validate_binning, raises. fold axes.
  destruct (mem "reco_energy" axes) eqn:He; cbn [negb].
  - apply mem_In in He.
    destruct (mem "reco_azimuth" axes) eqn:Ha.
    + apply mem_In in Ha.
      split; [|split; [|split]]; intros;
        solve [contradiction | eexists; split; reflexivity].
    + apply mem_not_In in Ha.
      destruct axes as [|first rest]; [destruct He|].
      destruct (String.eqb_spec first "reco_energy") as [E1|E1];
      destruct (String.eqb_spec first "reco_coszen") as [E2|E2];
        cbn [negb andb];
        (split; [|split; [|split]]);
        try (intros; contradiction);
        try (intros f [= <-] H1 H2; try contradiction;
             eexists; split; reflexivity);
        try (intros _ _ [[= H]|[= H]]; first [reflexivity | congruence]).
  - apply mem_not_In in He.
    split; [|split; [|split]]; intros;
      solve [contradiction | eexists; split; reflexivity].
Qed.

End Validation.

(** ** Lookup of a group's parameterisation *)

Section Lookup.

Context `{FW : Framework}.

Lemma prefix_plus (s : string) :
  prefix "+" s = match s with
                 | String c _ => Ascii.eqb c "+"%char
                 | EmptyString => false
                 end.
Proof.
  destruct s as [|c s]; [reflexivity|].
  cbn [prefix]. destruct (ascii_dec "+"%char c) as [<-|Hne].
  - now destruct s.
  - symmetry. apply Ascii.eqb_neq. congruence.
Qed.

Lemma str_split_no_plus (s : string) :
  str_in "+" s = false -> str_split "+"%char s = [s].
Proof.
  induction s as [|c s IH]; [reflexivity|].
  cbn [str_in str_split]. rewrite prefix_plus.
  destruct (Ascii.eqb c "+"%char); [discriminate|].
  simpl. intros H. now rewrite (IH H).
Qed.

(** A two-part name [X+Y] splits into exactly its two halves. *)
Lemma str_split_pair (X Y : string) :
  str_in "+" X = false -> str_in "+" Y = false ->
  str_split "+"%char (X ++ "+" ++ Y)%string = [X; Y].
Proof.
  intros HX HY. change ("+" ++ Y)%string with (String "+"%char Y).
  induction X as [|c X IH].
  - simpl. now rewrite str_split_no_plus by exact HY.
  - cbn [str_in] in HX. rewrite prefix_plus in HX.
    cbn [append str_split].
    destruct (Ascii.eqb c "+"%char); [discriminate|].
    simpl in HX. now rewrite (IH HX).
Qed.


End Lookup.

Section LookupExamples.

Import Demo.
#[local] Existing Instance demo_framework.



(** The validation statement at work on four binnings. *)
Lemma validate_binning_spec_witness :
  let stage b := fresh_stage [numu_cc] ["numu_cc"] b demo_param_dict in
  validate_binning (stage [reco_coszen; reco_energy]) = Ok tt /\
  raises ConfigurationError (validate_binning (stage [reco_energy; reco_azimuth])) /\
  raises ConfigurationError (validate_binning (stage [reco_coszen])) /\
  raises ConfigurationError (validate_binning (stage [dummy_pid; reco_energy])).
Proof.
  intros stage. split; [|split; [|split]].
  - apply (validate_binning_spec (stage [reco_coszen; reco_energy])).
    + simpl. auto.
    + simpl. intros [H|[H|[]]]; discriminate H.
    + right. reflexivity.
  - apply (proj1 (validate_binning_spec (stage [reco_energy; reco_azimuth]))).
    simpl. auto.
  - apply (proj1 (proj2 (validate_binning_spec (stage [reco_coszen])))).
    simpl. intros [H|[]]; discriminate H.
  - apply (proj1 (proj2 (proj2
             (validate_binning_spec (stage [dummy_pid; reco_energy])))))
      with (first := "pid"); [reflexivity | discriminate | discriminate].
Defined.

End LookupExamples.

(** ** The caching loader *)

Section Loader.

Context `{FW : Framework}.

(** A call that finds its own fingerprint stored changes nothing. *)
Lemma load_pid_energy_param_hit (self : Stage) (source : pyobj) :
  _energy_param_hash self = Some (hash_obj source) ->
  load_pid_energy_param self source = (self, Ok tt).
Proof.
  intros Hh. unfold load_pid_energy_param. rewrite Hh.
  now rewrite Z.eqb_refl.
Qed.

(** After a call that returned, the stored fingerprint is the source's. *)
Lemma load_pid_energy_param_stores (self self' : Stage) (source : pyobj) :
  load_pid_energy_param self source = (self', Ok tt) ->
  _energy_param_hash self' = Some (hash_obj source).
Proof.
  unfold load_pid_energy_param.
  destruct (_energy_param_hash self) as [h|] eqn:Hh.
  - destruct (Z.eqb_spec (hash_obj source) h) as [Heq|Hne].
    + intros [= <-]. now rewrite Heq.
    + destruct source; try discriminate.
      * destruct (from_file s); [intros [= <-]; reflexivity | discriminate].
      * intros [= <-]. reflexivity.
  - destruct source; try discriminate.
    + destruct (from_file s); [intros [= <-]; reflexivity | discriminate].
    + intros [= <-]. reflexivity.
Qed.

(** C8: after a load of [source] that returned, a second call with a source
    of equal fingerprint returns at once and leaves the stage as it is:
    same decoded mapping, same fingerprint, nothing read.  When the first
    call had to read the resource [resource], that read is the only one the
    two calls make. *)
Theorem load_pid_energy_param_twice (self self1 : Stage)
    (source source' : pyobj) :
  load_pid_energy_param self source = (self1, Ok tt) ->
  hash_obj source' = hash_obj source ->
  load_pid_energy_param self1 source' = (self1, Ok tt) /\
  (forall resource,
     source = PyStr resource ->
     _energy_param_hash self <> Some (hash_obj source) ->
     from_file_calls (fst (load_pid_energy_param self1 source'))
     = from_file_calls self ++ [resource]).
Proof.
  intros Hfirst Hsame.
  assert (Hsecond : load_pid_energy_param self1 source' = (self1, Ok tt)).
  { apply load_pid_energy_param_hit. rewrite Hsame.
    exact (load_pid_energy_param_stores _ _ Hfirst). }
  split; [exact Hsecond|].
  intros resource -> Hmiss. rewrite Hsecond. simpl.
  revert Hfirst. unfold load_pid_energy_param.
  destruct (_energy_param_hash self) as [h|].
  - destruct (Z.eqb_spec (hash_obj (PyStr resource)) h) as [Heq|Hne].
    + exfalso. apply Hmiss. now rewrite Heq.
    + destruct (from_file resource); [intros [= <-]; reflexivity | discriminate].
  - destruct (from_file resource); [intros [= <-]; reflexivity | discriminate].
Qed.

End Loader.

Section LoaderExamples.

Import Demo.
#[local] Existing Instance demo_framework.

(** Two loads of the same resource from a fresh stage: one read. *)
Lemma load_pid_energy_param_twice_witness :
  let source := PyStr "pid/pid_energy_param.json" in
  let self := fresh_stage [numu_cc] ["numu_cc"] [reco_energy] source in
  let self1 := fst (load_pid_energy_param self source) in
  load_pid_energy_param self1 source = (self1, Ok tt) /\
  energy_param_dict self1 = Some demo_param_dict /\
  from_file_calls (fst (load_pid_energy_param self1 source))
  = ["pid/pid_energy_param.json"].
Proof.
  intros source self self1.
  destruct (@load_pid_energy_param_twice demo_framework self self1
              source source eq_refl eq_refl) as [Hsecond Hreads].
  split; [exact Hsecond|]. split; [reflexivity|].
  apply (Hreads "pid/pid_energy_param.json" eq_refl). discriminate.
Defined.

End LoaderExamples.

(** ** The assembly loops in closed form *)

Section Assembly.

Context `{FW : Framework}.

Lemma bind_Ok_inv {A B} (r : result A) (k : A -> result B) (b : B) :
  (x <- r ;; k x) = Ok b -> exists a, r = Ok a /\ k a = Ok b.
Proof. destruct r as [a|e]; simpl; [eauto | discriminate]. Qed.

Lemma inputs_loop_spec (self : Stage) (g : NuFlavIntGroup) (sig : string)
    (a : ndarray) (inputs : list string) (acc : list BinnedTensorTransform) :
  inputs_loop self g sig a inputs acc
  = acc ++ map (make_xform self sig a) (filter (group_contains g) inputs).
Proof.
  revert acc. induction inputs as [|n inputs IH]; intros acc; simpl.
  - now rewrite app_nil_r.
  - destruct (group_contains g n); simpl; rewrite IH; [|reflexivity].
    now rewrite <- app_assoc.
Qed.

Lemma channels_loop_acc (self : Stage) (ecen : list Q) (g : NuFlavIntGroup)
    (items : list (string * pyobj)) (channels : list string)
    (acc : list BinnedTensorTransform) :
  channels_loop self ecen g items channels acc
  = (ts <- channels_loop self ecen g items channels [] ;; Ok (acc ++ ts)).
Proof.
  revert acc. induction channels as [|sig rest IH]; intros acc; simpl.
  - now rewrite app_nil_r.
  - destruct (channel_curve self ecen items sig) as [a|e]; simpl; [|reflexivity].
    rewrite IH. rewrite (IH (inputs_loop _ _ _ _ _ [])).
    destruct (channels_loop self ecen g items rest []) as [ts|e]; simpl;
      [|reflexivity].
    rewrite !inputs_loop_spec. simpl. now rewrite app_assoc.
Qed.

(** One group: both curves are evaluated once, then every input of the
    group gets the track transform, then every input the cascade one. *)
Lemma group_transforms_block (self : Stage) (ecen : list Q)
    (g : NuFlavIntGroup) :
  group_transforms self ecen g
  = (items <- group_energy_param self g ;;
     a_trck <- channel_curve self ecen items "trck" ;;
     a_cscd <- channel_curve self ecen items "cscd" ;;
     Ok (group_block self g a_trck a_cscd)).
Proof.
  unfold group_transforms, output_channels.
  destruct (group_energy_param self g) as [items|e]; simpl; [|reflexivity].
  destruct (channel_curve self ecen items "trck") as [a_t|e]; simpl;
    [|reflexivity].
  destruct (channel_curve self ecen items "cscd") as [a_c|e]; simpl;
    [|reflexivity].
  rewrite !inputs_loop_spec. reflexivity.
Qed.

Lemma groups_loop_spec (self : Stage) (ecen : list Q)
    (groups : list NuFlavIntGroup) (acc : list BinnedTensorTransform) :
  groups_loop self ecen groups acc
  = (tss <- traverse (group_transforms self ecen) groups ;;
     Ok (acc ++ concat tss)).
Proof.
  revert acc. induction groups as [|g rest IH]; intros acc;
    cbn [groups_loop traverse].
  - cbn [bind concat]. now rewrite app_nil_r.
  - unfold group_transforms at 1.
    destruct (group_energy_param self g) as [items|e]; cbn [bind];
      [|reflexivity].
    rewrite channels_loop_acc.
    destruct (channels_loop self ecen g items output_channels [])
      as [ts|e]; cbn [bind]; [|reflexivity].
    rewrite IH.
    destruct (traverse (group_transforms self ecen) rest) as [tss|e];
      cbn [bind concat]; [|reflexivity].
    now rewrite app_assoc.
Qed.

(** The loader touches nothing but the parameterisation and its cache. *)
Lemma load_pid_energy_param_setup (self self' : Stage) (source : pyobj)
    (r : result unit) :
  load_pid_energy_param self source = (self', r) ->
  transform_groups self' = transform_groups self /\
  input_names self' = input_names self /\
  input_binning self' = input_binning self.
Proof.
  unfold load_pid_energy_param.
  destruct (match _energy_param_hash self with
            | Some h => Z.eqb (hash_obj source) h
            | None => false
            end).
  - intros [= <- _]. auto.
  - destruct source; try (intros [= <- _]; auto).
    destruct (from_file s); intros [= <- _]; auto.
Qed.

(** The whole method: energy centres, load, then the groups one by one. *)
Lemma _compute_nominal_transforms_spec (self : Stage) :
  _compute_nominal_transforms self
  = match energy_centers self with
    | Raise e => (self, Raise e)
    | Ok ecen =>
        let (self1, loaded) :=
          load_pid_energy_param self (pid_energy_paramfile self) in
        match loaded with
        | Raise e => (self1, Raise e)
        | Ok _ =>
            (self1,
             tss <- traverse (group_transforms self1 ecen)
                      (transform_groups self1) ;;
             Ok {| transforms := concat tss |})
        end
    end.
Proof.
  unfold _compute_nominal_transforms, energy_centers.
  destruct (getdim (input_binning self) "reco_energy") as [eb|e]; simpl;
    [|reflexivity].
  destruct (load_pid_energy_param self (pid_energy_paramfile self))
    as [self1 [[]|e]]; [|reflexivity].
  rewrite groups_loop_spec.
  destruct (traverse _ _); reflexivity.
Qed.

End Assembly.

(** ** Transform assembly: the end-to-end scenario and the channel check *)

Section Scenario.

Context `{FW : Framework}.

Lemma find_energy_param_exact (self : Stage) (items : list (string * pyobj))
    (flavstr : string) (entry : pyobj) :
  energy_param_dict self = Some (PyDict items) ->
  getitem items flavstr = Some entry ->
  find_energy_param self flavstr = Ok entry.
Proof.
  intros Hd Hget. unfold find_energy_param, dict_getitem. rewrite Hd.
  assert (Hin : mem flavstr (keys items) = true).
  { apply mem_In. clear Hd. induction items as [|[k v] items IH];
      simpl in *; [discriminate|].
    destruct (String.eqb_spec flavstr k); [now left | right; auto]. }
  now rewrite Hin, Hget.
Qed.

(** The channel check of lines 296-304 passes exactly when [keys()] is the
    list [trck, cscd], in this order. *)
Lemma group_energy_param_Ok (self : Stage) (g : NuFlavIntGroup)
    (items : list (string * pyobj)) :
  group_energy_param self g = Ok items <->
  find_energy_param self (group_str g) = Ok (PyDict items)
  /\ keys items = ["trck"; "cscd"].
Proof.
  unfold group_energy_param.
  destruct (find_energy_param self (group_str g)) as [o|e]; cbn [bind].
  - destruct o as [| | | | |its]; try (split; [discriminate | intros [[=] _]]).
    destruct (list_eqb output_channels (keys its)) eqn:E; cbn [negb].
    + apply list_eqb_eq in E. split.
      * intros [= ->]. split; [reflexivity | now rewrite <- E].
      * intros [[= ->] _]. reflexivity.
    + split; [discriminate|]. intros [[= ->] Hk].
      assert (E' : list_eqb output_channels (keys items) = true)
        by (apply list_eqb_eq; now rewrite Hk).
      congruence.
  - split; [discriminate | intros [[=] _]].
Qed.

(** A key list other than [trck, cscd] is refused with a configuration
    error that shows both lists. *)
Lemma group_energy_param_mismatch (self : Stage) (g : NuFlavIntGroup)
    (items : list (string * pyobj)) :
  find_energy_param self (group_str g) = Ok (PyDict items) ->
  keys items <> output_channels ->
  group_energy_param self g
  = Raise (ValueError (ChannelMismatch output_channels (keys items)))
  /\ message_kind (ChannelMismatch output_channels (keys items))
     = ConfigurationError.
Proof.
  intros Hfind Hkeys. unfold group_energy_param. rewrite Hfind. cbn [bind].
  destruct (list_eqb output_channels (keys items)) eqn:E; cbn [negb].
  - apply list_eqb_eq in E. congruence.
  - split; reflexivity.
Qed.



End Scenario.

Section ScenarioExamples.

Import Demo.
#[local] Existing Instance demo_framework.



(** C5, the failing input: the entry of [numu_cc] holds exactly the keys
    [trck] and [cscd], stored with [cscd] first.  The key set is the one
    required, and the method raises the channel-mismatch error. *)
Theorem channel_check_rejects_swapped_keys :
  (forall k, In k (keys [("cscd", PyStr "lambda E: 0.1 + 0*E");
                         ("trck", PyStr "lambda E: 0.9 + 0*E")])
             <-> In k output_channels) /\
  snd (_compute_nominal_transforms swapped_stage)
  = Raise (ValueError (ChannelMismatch ["trck"; "cscd"] ["cscd"; "trck"])).
Proof.
  split; [|reflexivity].
  intros k. simpl. tauto.
Qed.

End ScenarioExamples.

(** ** Which inputs get transforms *)

Section Coverage.

Context `{FW : Framework}.

Lemma eqb_append_l (x y z : string) :
  String.eqb (x ++ y) (x ++ z) = String.eqb y z.
Proof.
  induction x as [|c x IH]; simpl; [reflexivity|].
  now rewrite Ascii.eqb_refl.
Qed.

Lemma is_channel_make_xform (self : Stage) (sig sig' : string) (a : ndarray)
    (n : string) :
  is_channel sig (make_xform self sig' a n) = String.eqb sig' sig.
Proof.
  unfold is_channel, make_xform, suffix_channel. simpl.
  now rewrite !eqb_append_l.
Qed.

Lemma count_xforms_app (n sig : string) (l1 l2 : list BinnedTensorTransform) :
  count_xforms n sig (l1 ++ l2) = count_xforms n sig l1 + count_xforms n sig l2.
Proof. unfold count_xforms. now rewrite filter_app, length_app. Qed.

Lemma count_xforms_map (self : Stage) (n sig sig' : string) (a : ndarray)
    (ins : list string) :
  count_xforms n sig (map (make_xform self sig' a) ins)
  = if String.eqb sig' sig then count_occ string_dec ins n else 0.
Proof.
  unfold count_xforms. induction ins as [|m ins IH]; cbn [map filter].
  - now destruct (String.eqb sig' sig).
  - rewrite is_channel_make_xform. cbn [xform_input_names make_xform].
    cbn [count_occ].
    destruct (String.eqb_spec m n) as [->|Hne];
      destruct (String.eqb sig' sig) eqn:E; cbn [andb length];
      destruct (string_dec n n) as [_|Hnn]; try contradiction;
      try destruct (string_dec m n) as [Hmn|_]; try contradiction;
      rewrite IH; reflexivity.
Qed.

Lemma count_occ_filter (p : string -> bool) (l : list string) (n : string) :
  count_occ string_dec (filter p l) n
  = if p n then count_occ string_dec l n else 0.
Proof.
  induction l as [|m l IH]; simpl.
  - now destruct (p n).
  - destruct (string_dec m n) as [->|Hne].
    + destruct (p n); simpl; [|exact IH].
      destruct (string_dec n n); [|contradiction]. now rewrite IH.
    + destruct (p m); simpl; [|exact IH].
      destruct (string_dec m n); [contradiction|]. exact IH.
Qed.

(** In the block of a group an input has as many transforms per channel as
    it has occurrences among the inputs, and none if the group does not
    cover it. *)
Lemma count_xforms_block (self : Stage) (g : NuFlavIntGroup)
    (a_trck a_cscd : ndarray) (n sig : string) :
  In sig output_channels ->
  count_xforms n sig (group_block self g a_trck a_cscd)
  = if group_contains g n then count_occ string_dec (input_names self) n
    else 0.
Proof.
  intros Hsig. unfold group_block, group_inputs.
  rewrite count_xforms_app, !count_xforms_map, count_occ_filter.
  destruct Hsig as [<-|[<-|[]]]; simpl; lia.
Qed.

Lemma In_block (self : Stage) (g : NuFlavIntGroup) (a_trck a_cscd : ndarray)
    (t : BinnedTensorTransform) :
  In t (group_block self g a_trck a_cscd) ->
  In (xform_input_names t) (input_names self)
  /\ group_contains g (xform_input_names t) = true.
Proof.
  unfold group_block, group_inputs. rewrite in_app_iff, !in_map_iff.
  intros [[n [<- Hn]]|[n [<- Hn]]]; apply filter_In in Hn; exact Hn.
Qed.

Lemma group_transforms_Ok (self : Stage) (ecen : list Q) (g : NuFlavIntGroup)
    (ts : list BinnedTensorTransform) :
  group_transforms self ecen g = Ok ts ->
  exists items a_trck a_cscd,
    group_energy_param self g = Ok items /\
    channel_curve self ecen items "trck" = Ok a_trck /\
    channel_curve self ecen items "cscd" = Ok a_cscd /\
    ts = group_block self g a_trck a_cscd.
Proof.
  rewrite group_transforms_block. intros H.
  apply bind_Ok_inv in H as [items [Hi H]].
  apply bind_Ok_inv in H as [a_t [Ht H]].
  apply bind_Ok_inv in H as [a_c [Hc H]].
  injection H as <-. exists items, a_t, a_c. auto.
Qed.

Lemma traverse_cons_Ok {A B} (f : A -> result B) (x : A) (l : list A)
    (ys : list B) :
  traverse f (x :: l) = Ok ys ->
  exists y ys', f x = Ok y /\ traverse f l = Ok ys' /\ ys = y :: ys'.
Proof.
  cbn [traverse]. intros H.
  apply bind_Ok_inv in H as [y [Hy H]].
  apply bind_Ok_inv in H as [ys' [Hys H]].
  injection H as <-. eauto.
Qed.

Lemma traverse_ext_in {A B} (f f' : A -> result B) (l : list A) :
  (forall x, In x l -> f x = f' x) -> traverse f l = traverse f' l.
Proof.
  induction l as [|x l IH]; intros Hext; cbn [traverse]; [reflexivity|].
  rewrite (Hext x (or_introl eq_refl)), IH; [reflexivity|].
  intros y Hy. apply Hext. now right.
Qed.

(** What the groups together produce. *)
Lemma traverse_groups_cover (self : Stage) (ecen : list Q)
    (groups : list NuFlavIntGroup) (tss : list (list BinnedTensorTransform)) :
  traverse (group_transforms self ecen) groups = Ok tss ->
  (forall t, In t (concat tss) ->
     In (xform_input_names t) (input_names self)
     /\ existsb (fun g => group_contains g (xform_input_names t)) groups
        = true)
  /\ (forall n sig, In sig output_channels ->
        count_xforms n sig (concat tss)
        = count_occ string_dec (input_names self) n
          * length (filter (fun g => group_contains g n) groups)).
Proof.
  revert tss. induction groups as [|g groups IH]; intros tss H.
  - injection H as <-. split; [intros t []|].
    intros n sig _. cbn. lia.
  - apply traverse_cons_Ok in H as [ts [tss' [Hg [Hrest ->]]]].
    destruct (IH _ Hrest) as [IHin IHcount].
    apply group_transforms_Ok in Hg as [items [a_t [a_c [_ [_ [_ ->]]]]]].
    split.
    + intros t Ht. cbn [concat] in Ht. apply in_app_or in Ht as [Ht|Ht].
      * apply In_block in Ht as [Hin Hc]. split; [exact Hin|].
        cbn [existsb]. now rewrite Hc.
      * destruct (IHin t Ht) as [Hin Hex]. split; [exact Hin|].
        cbn [existsb]. rewrite Hex. apply orb_true_r.
    + intros n sig Hsig. cbn [concat filter].
      rewrite count_xforms_app, (count_xforms_block _ _ _ _ _ Hsig),
        (IHcount n sig Hsig).
      destruct (group_contains g n); cbn [length]; lia.
Qed.

End Coverage.

Section Skipping.

Context `{FW : Framework}.

Lemma load_pid_energy_param_inputs (self : Stage) (source : pyobj)
    (l : list string) :
  load_pid_energy_param (set_input_names self l) source
  = (set_input_names (fst (load_pid_energy_param self source)) l,
     snd (load_pid_energy_param self source)).
Proof.
  unfold load_pid_energy_param. cbn [_energy_param_hash set_input_names].
  destruct (match _energy_param_hash self with
            | Some h => Z.eqb (hash_obj source) h
            | None => false
            end); [reflexivity|].
  destruct source; try reflexivity.
  destruct (from_file s); reflexivity.
Qed.

Lemma filter_filter_implied (p q : string -> bool) (l : list string) :
  (forall x, p x = true -> q x = true) ->
  filter p (filter q l) = filter p l.
Proof.
  intros Himp. induction l as [|x l IH]; simpl; [reflexivity|].
  destruct (q x) eqn:Eq; simpl.
  - now rewrite IH.
  - destruct (p x) eqn:Ep; [|exact IH].
    rewrite (Himp x Ep) in Eq. discriminate.
Qed.

(** Whether a group yields transforms does not depend on the input names;
    with the ungrouped names dropped it yields the very same ones. *)
Lemma group_transforms_inputs (self : Stage) (ecen : list Q)
    (g : NuFlavIntGroup) (l : list string) :
  group_transforms (set_input_names self l) ecen g
  = (items <- group_energy_param self g ;;
     a_trck <- channel_curve self ecen items "trck" ;;
     a_cscd <- channel_curve self ecen items "cscd" ;;
     Ok (group_block (set_input_names self l) g a_trck a_cscd)).
Proof. now rewrite group_transforms_block. Qed.

Lemma group_transforms_grouped (self : Stage) (ecen : list Q)
    (g : NuFlavIntGroup) (groups : list NuFlavIntGroup) :
  In g groups ->
  group_transforms
    (set_input_names self
       (filter (fun n => existsb (fun g' => group_contains g' n) groups)
          (input_names self))) ecen g
  = group_transforms self ecen g.
Proof.
  intros Hg. rewrite group_transforms_inputs, group_transforms_block.
  unfold group_block, group_inputs. cbn [input_names set_input_names].
  rewrite filter_filter_implied; [reflexivity|].
  intros n Hn. apply existsb_exists. eauto.
Qed.

Lemma traverse_groups_inputs (self : Stage) (ecen : list Q)
    (groups : list NuFlavIntGroup) (l : list string) :
  succeeds (traverse (group_transforms self ecen) groups) ->
  succeeds (traverse (group_transforms (set_input_names self l) ecen) groups).
Proof.
  induction groups as [|g groups IH]; intros [tss H].
  - exists []. reflexivity.
  - apply traverse_cons_Ok in H as [ts [tss' [Hg [Hrest _]]]].
    destruct (IH (ex_intro _ tss' Hrest)) as [tss'' Hrest'].
    apply group_transforms_Ok in Hg as [items [a_t [a_c [Hi [Ht [Hc _]]]]]].
    cbn [traverse]. rewrite group_transforms_inputs, Hi. cbn [bind].
    rewrite Ht, Hc, Hrest'. cbn [bind]. eexists. reflexivity.
Qed.

(** C10: when the method returns a TransformSet, every transform in it
    takes an input name that is among the inputs and in some configured
    group; per channel an input has one transform for each group that
    covers it (times its occurrences among the inputs), so none if no group
    covers it and several if several do; dropping the uncovered names from
    the inputs gives the same TransformSet; and the method returns whatever
    the input names are: membership of inputs in groups is never checked. *)
Theorem inputs_outside_groups_skipped (self self' : Stage)
    (T : TransformSet) :
  _compute_nominal_transforms self = (self', Ok T) ->
  (forall t, In t (transforms T) ->
     In (xform_input_names t) (input_names self)
     /\ grouped self (xform_input_names t) = true) /\
  (forall n sig, In sig output_channels ->
     count_xforms n sig (transforms T)
     = count_occ string_dec (input_names self) n
       * length (filter (fun g => group_contains g n)
                   (transform_groups self))) /\
  snd (_compute_nominal_transforms
         (set_input_names self (filter (grouped self) (input_names self))))
  = Ok T /\
  (forall l,
     succeeds (snd (_compute_nominal_transforms (set_input_names self l)))).
Proof.
  rewrite _compute_nominal_transforms_spec.
  destruct (energy_centers self) as [ecen|e] eqn:Hcen; [|discriminate].
  destruct (load_pid_energy_param self (pid_energy_paramfile self))
    as [self1 [[]|e]] eqn:Hload; [|discriminate].
  destruct (load_pid_energy_param_setup _ _ Hload) as [Hg1 [Hn1 Hb1]].
  destruct (traverse (group_transforms self1 ecen) (transform_groups self1))
    as [tss|e] eqn:Htrav; [|discriminate].
  cbn [bind]. intros [= <- <-]. cbn [transforms].
  destruct (traverse_groups_cover _ _ _ Htrav) as [Hin Hcount].
  rewrite Hg1, Hn1 in *.
  assert (Hrun : forall l,
    snd (_compute_nominal_transforms (set_input_names self l))
    = (tss' <- traverse (group_transforms (set_input_names self1 l) ecen)
                 (transform_groups self) ;;
       Ok {| transforms := concat tss' |})).
  { intros l. rewrite _compute_nominal_transforms_spec.
    change (energy_centers (set_input_names self l))
      with (energy_centers self).
    rewrite Hcen.
    change (pid_energy_paramfile (set_input_names self l))
      with (pid_energy_paramfile self).
    rewrite load_pid_energy_param_inputs, Hload. cbn [fst snd].
    cbn [transform_groups set_input_names]. now rewrite Hg1. }
  split; [exact Hin|]. split; [exact Hcount|]. split.
  - rewrite Hrun.
    rewrite traverse_ext_in with (f' := group_transforms self1 ecen).
    + now rewrite Htrav.
    + intros g Hg. unfold grouped. rewrite <- Hn1.
      now apply group_transforms_grouped.
  - intros l. rewrite Hrun.
    destruct (traverse_groups_inputs self1 ecen (transform_groups self) l)
      as [tss' Htss']; [now exists tss|].
    rewrite Htss'. eexists. reflexivity.
Qed.

End Skipping.

Section SkippingExamples.

Import Demo.
#[local] Existing Instance demo_framework.

(** On [overlap_stage]: two pairs for [numu_cc], one for [nue_cc], none
    for [muons], and no error. *)
Lemma inputs_outside_groups_skipped_witness :
  exists self' T,
    _compute_nominal_transforms overlap_stage = (self', Ok T) /\
    count_xforms "numu_cc" "trck" (transforms T) = 2 /\
    count_xforms "numu_cc" "cscd" (transforms T) = 2 /\
    count_xforms "nue_cc" "trck" (transforms T) = 1 /\
    count_xforms "muons" "trck" (transforms T) = 0 /\
    (forall t, In t (transforms T) -> xform_input_names t <> "muons").
Proof.
  destruct (_compute_nominal_transforms overlap_stage) as [self' [T|e]]
    eqn:Hrun; [|vm_compute in Hrun; discriminate Hrun].
  exists self', T. split; [reflexivity|].
  destruct (@inputs_outside_groups_skipped demo_framework overlap_stage
              self' T Hrun) as [Hin [Hcount _]].
  rewrite !Hcount by (simpl; auto).
  repeat split.
  intros t Ht Hm. destruct (Hin t Ht) as [_ Hg].
  rewrite Hm in Hg. discriminate Hg.
Defined.

End SkippingExamples.

(** ** One curve per group and channel; channels do not interfere *)

Section Channels.

Context `{FW : Framework}.

Lemma keys_setitem (items : list (string * pyobj)) (k : string) (v : pyobj) :
  In k (keys items) -> keys (setitem items k v) = keys items.
Proof.
  induction items as [|[k' v'] items IH]; simpl; [easy|].
  intros Hin. destruct (String.eqb_spec k k') as [->|Hne]; [reflexivity|].
  simpl. f_equal. apply IH. destruct Hin as [Heq|Hin]; [congruence|exact Hin].
Qed.

Lemma getitem_setitem (items : list (string * pyobj)) (k k' : string)
    (v : pyobj) :
  getitem (setitem items k v) k'
  = if String.eqb k' k then Some v else getitem items k'.
Proof.
  induction items as [|[k0 v0] items IH]; simpl.
  - now destruct (String.eqb k' k).
  - destruct (String.eqb_spec k k0) as [->|Hne]; simpl.
    + now destruct (String.eqb k' k0).
    + rewrite IH. destruct (String.eqb_spec k' k0) as [->|Hne'];
        [|reflexivity].
      destruct (String.eqb_spec k0 k); [congruence|reflexivity].
Qed.

Lemma getitem_Some_In (items : list (string * pyobj)) (k : string)
    (v : pyobj) :
  getitem items k = Some v -> In k (keys items).
Proof.
  induction items as [|[k' v'] items IH]; simpl; [discriminate|].
  destruct (String.eqb_spec k k'); [now left | right; auto].
Qed.

(** With the value under [k] replaced, a lookup that succeeded still
    succeeds: with the same result, or with the new value where it gave
    the old one. *)
Lemma find_energy_param_setitem (s s' : Stage) (d : list (string * pyobj))
    (k : string) (v v' : pyobj) (flavstr : string) (o o' : pyobj) :
  energy_param_dict s = Some (PyDict d) ->
  energy_param_dict s' = Some (PyDict (setitem d k v')) ->
  getitem d k = Some v ->
  find_energy_param s flavstr = Ok o ->
  find_energy_param s' flavstr = Ok o' ->
  o' = o \/ (o = v /\ o' = v').
Proof.
  intros Hd Hd' Hk. unfold find_energy_param, dict_getitem.
  rewrite Hd, Hd', (keys_setitem _ _ _ (getitem_Some_In _ _ Hk)).
  assert (Hlook : forall key,
    match getitem d key with Some x => Ok x | None => Raise (KeyError key) end
    = Ok o ->
    match getitem (setitem d k v') key with
    | Some x => Ok x
    | None => Raise (KeyError key)
    end = Ok o' -> o' = o \/ (o = v /\ o' = v')).
  { intros key. rewrite getitem_setitem.
    destruct (String.eqb_spec key k) as [->|Hne].
    - rewrite Hk. intros [= <-] [= <-]. now right.
    - destruct (getitem d key); [|discriminate].
      intros [= <-] [= <-]. now left. }
  destruct (mem flavstr (keys d)); cbn [negb]; [apply Hlook|].
  destruct (str_in "+" flavstr); [|discriminate].
  destruct (String.eqb _ _); [|discriminate].
  destruct (mem _ (keys d)); [apply Hlook | discriminate].
Qed.

(** Rewriting the cascade expression of an entry leaves what a group
    finds under [trck] as it was. *)
Lemma group_energy_param_with_cscd (s s' : Stage)
    (d entry : list (string * pyobj)) (k expr : string) (g : NuFlavIntGroup)
    (items items' : list (string * pyobj)) :
  energy_param_dict s = Some (PyDict d) ->
  energy_param_dict s' = Some (PyDict (with_cscd d k entry expr)) ->
  getitem d k = Some (PyDict entry) ->
  group_energy_param s g = Ok items ->
  group_energy_param s' g = Ok items' ->
  getitem items' "trck" = getitem items "trck".
Proof.
  intros Hd Hd' Hk Hi Hi'.
  apply group_energy_param_Ok in Hi as [Hfind Hkeys].
  apply group_energy_param_Ok in Hi' as [Hfind' _].
  assert (Hcases : PyDict items' = PyDict items
                   \/ (PyDict items = PyDict entry
                       /\ PyDict items'
                          = PyDict (setitem entry "cscd" (PyStr expr)))).
  { unfold with_cscd in Hd'.
    eapply find_energy_param_setitem;
      [exact Hd | exact Hd' | exact Hk | exact Hfind | exact Hfind']. }
  destruct Hcases as [[= ->]|[[= ->] [= ->]]]; [reflexivity|].
  now rewrite getitem_setitem.
Qed.

Lemma curve_array_binning (s s' : Stage) (ecen : list Q) (f : callable) :
  input_binning s = input_binning s' ->
  curve_array s ecen f = curve_array s' ecen f.
Proof. intros Hb. unfold curve_array. now rewrite Hb. Qed.

Lemma group_block_setup (s s' : Stage) (g : NuFlavIntGroup)
    (a_trck a_cscd : ndarray) :
  input_names s = input_names s' -> input_binning s = input_binning s' ->
  group_block s g a_trck a_cscd = group_block s' g a_trck a_cscd.
Proof.
  intros Hn Hb. unfold group_block, group_inputs, make_xform.
  now rewrite Hn, Hb.
Qed.

Lemma filter_is_channel_map (s : Stage) (sig sig' : string) (a : ndarray)
    (ins : list string) :
  filter (is_channel sig) (map (make_xform s sig' a) ins)
  = if String.eqb sig' sig then map (make_xform s sig' a) ins else [].
Proof.
  induction ins as [|n ins IH]; cbn [map filter].
  - now destruct (String.eqb sig' sig).
  - rewrite is_channel_make_xform, IH.
    now destruct (String.eqb sig' sig).
Qed.

Lemma filter_trck_block (s : Stage) (g : NuFlavIntGroup)
    (a_trck a_cscd : ndarray) :
  filter (is_channel "trck") (group_block s g a_trck a_cscd)
  = map (make_xform s "trck" a_trck) (group_inputs s g).
Proof.
  unfold group_block. rewrite filter_app, !filter_is_channel_map.
  cbn. apply app_nil_r.
Qed.

End Channels.

Section Independence.

Context `{FW : Framework}.

Lemma channel_curve_trck (s s' : Stage) (ecen : list Q)
    (items items' : list (string * pyobj)) :
  input_binning s = input_binning s' ->
  getitem items' "trck" = getitem items "trck" ->
  channel_curve s' ecen items' "trck" = channel_curve s ecen items "trck".
Proof.
  intros Hb Hget. unfold channel_curve, dict_getitem. rewrite Hget.
  destruct (getitem items "trck") as [o|]; cbn [bind]; [|reflexivity].
  destruct (evaluate_expression o) as [f|e]; cbn [bind]; [|reflexivity].
  symmetry. now apply curve_array_binning.
Qed.

(** The track transforms of one group before and after the change. *)
Lemma group_transforms_trck (s s' : Stage) (ecen : list Q)
    (d entry : list (string * pyobj)) (k expr : string) (g : NuFlavIntGroup)
    (ts ts' : list BinnedTensorTransform) :
  input_names s = input_names s' -> input_binning s = input_binning s' ->
  energy_param_dict s = Some (PyDict d) ->
  energy_param_dict s' = Some (PyDict (with_cscd d k entry expr)) ->
  getitem d k = Some (PyDict entry) ->
  group_transforms s ecen g = Ok ts ->
  group_transforms s' ecen g = Ok ts' ->
  filter (is_channel "trck") ts' = filter (is_channel "trck") ts.
Proof.
  intros Hn Hb Hd Hd' Hk Hts Hts'.
  apply group_transforms_Ok in Hts as [items [a_t [a_c [Hi [Ht [_ ->]]]]]].
  apply group_transforms_Ok in Hts'
    as [items' [a_t' [a_c' [Hi' [Ht' [_ ->]]]]]].
  assert (Hget : getitem items' "trck" = getitem items "trck").
  { eapply group_energy_param_with_cscd;
      [exact Hd | exact Hd' | exact Hk | exact Hi | exact Hi']. }
  rewrite (channel_curve_trck s s' ecen items items' Hb Hget), Ht in Ht'.
  injection Ht' as <-.
  rewrite !filter_trck_block. unfold group_inputs, make_xform.
  now rewrite Hn, Hb.
Qed.

Lemma traverse_groups_trck (s s' : Stage) (ecen : list Q)
    (d entry : list (string * pyobj)) (k expr : string)
    (groups : list NuFlavIntGroup)
    (tss tss' : list (list BinnedTensorTransform)) :
  input_names s = input_names s' -> input_binning s = input_binning s' ->
  energy_param_dict s = Some (PyDict d) ->
  energy_param_dict s' = Some (PyDict (with_cscd d k entry expr)) ->
  getitem d k = Some (PyDict entry) ->
  traverse (group_transforms s ecen) groups = Ok tss ->
  traverse (group_transforms s' ecen) groups = Ok tss' ->
  filter (is_channel "trck") (concat tss')
  = filter (is_channel "trck") (concat tss).
Proof.
  intros Hn Hb Hd Hd' Hk. revert tss tss'.
  induction groups as [|g groups IH]; intros tss tss' H H'.
  - injection H as <-. injection H' as <-. reflexivity.
  - apply traverse_cons_Ok in H as [ts [rest [Hg [Hrest ->]]]].
    apply traverse_cons_Ok in H' as [ts' [rest' [Hg' [Hrest' ->]]]].
    cbn [concat]. rewrite !filter_app, (IH _ _ Hrest Hrest'). f_equal.
    eapply group_transforms_trck;
      [exact Hn | exact Hb | exact Hd | exact Hd' | exact Hk
      | exact Hg | exact Hg'].
Qed.

(** Each group contributes the block of one pair of arrays. *)
Lemma traverse_groups_blocks (s : Stage) (ecen : list Q)
    (groups : list NuFlavIntGroup) (tss : list (list BinnedTensorTransform)) :
  traverse (group_transforms s ecen) groups = Ok tss ->
  exists curves : list (ndarray * ndarray),
    length curves = length groups /\
    concat tss
    = flat_map (fun gc => group_block s (fst gc) (fst (snd gc)) (snd (snd gc)))
        (combine groups curves).
Proof.
  revert tss. induction groups as [|g groups IH]; intros tss H.
  - injection H as <-. exists []. auto.
  - apply traverse_cons_Ok in H as [ts [rest [Hg [Hrest ->]]]].
    destruct (IH _ Hrest) as [curves [Hlen Hcat]].
    apply group_transforms_Ok in Hg as [items [a_t [a_c [_ [_ [_ ->]]]]]].
    exists ((a_t, a_c) :: curves). split; [simpl; now rewrite Hlen|].
    cbn [concat combine flat_map fst snd]. now rewrite Hcat.
Qed.

Lemma _compute_nominal_transforms_Ok (self self' : Stage) (T : TransformSet) :
  _compute_nominal_transforms self = (self', Ok T) ->
  exists ecen tss,
    energy_centers self = Ok ecen /\
    load_pid_energy_param self (pid_energy_paramfile self) = (self', Ok tt) /\
    traverse (group_transforms self' ecen) (transform_groups self') = Ok tss /\
    transforms T = concat tss.
Proof.
  rewrite _compute_nominal_transforms_spec.
  destruct (energy_centers self) as [ecen|e]; [|discriminate].
  destruct (load_pid_energy_param self (pid_energy_paramfile self))
    as [s1 [[]|e]]; [|discriminate].
  destruct (traverse (group_transforms s1 ecen) (transform_groups s1))
    as [tss|e] eqn:Htrav; [|discriminate].
  cbn [bind]. intros [= <- <-]. exists ecen, tss. auto.
Qed.

(** C7: the returned TransformSet is, group after group, one pair of
    arrays per group, a track array and a cascade array, handed to the
    inputs of the group: first one transform [n -> n_trck] per input [n] of
    the group, each carrying the group's track array, then one transform
    [n -> n_cscd] per input, each carrying the group's cascade array.  So
    within a group and a channel the transforms differ in their names only
    and all carry the same array.  And if the cascade expression of one
    entry is rewritten and the method run again on an otherwise equal
    stage, the track transforms of the two TransformSets are the same,
    arrays included. *)
Theorem curves_shared_not_mixed (self self2 s1 s2 : Stage)
    (d entry : list (string * pyobj)) (k expr : string)
    (T T2 : TransformSet) :
  same_setup self self2 ->
  loads self d ->
  loads self2 (with_cscd d k entry expr) ->
  getitem d k = Some (PyDict entry) ->
  _compute_nominal_transforms self = (s1, Ok T) ->
  _compute_nominal_transforms self2 = (s2, Ok T2) ->
  (exists curves : list (ndarray * ndarray),
     length curves = length (transform_groups self) /\
     transforms T
     = flat_map
         (fun gc =>
            let inputs := filter (fun n => mem n (flavints (fst gc)))
                            (input_names self) in
            map (fun n =>
                   {| xform_input_names := n;
                      xform_output_name := (n ++ "_trck")%string;
                      xform_input_binning := input_binning self;
                      xform_output_binning := input_binning self;
                      xform_array := fst (snd gc) |}) inputs
            ++ map (fun n =>
                      {| xform_input_names := n;
                         xform_output_name := (n ++ "_cscd")%string;
                         xform_input_binning := input_binning self;
                         xform_output_binning := input_binning self;
                         xform_array := snd (snd gc) |}) inputs)
         (combine (transform_groups self) curves)) /\
  filter (fun t => String.eqb (xform_output_name t)
                     (xform_input_names t ++ "_trck"))
    (transforms T2)
  = filter (fun t => String.eqb (xform_output_name t)
                       (xform_input_names t ++ "_trck"))
      (transforms T).
Proof.
  intros [Hgroups [Hnames Hbinning]] [l1 [Hl1 Hd1]] [l2 [Hl2 Hd2]] Hk Hrun Hrun2.
  apply _compute_nominal_transforms_Ok in Hrun
    as [ecen [tss [Hcen [Hload [Htrav ->]]]]].
  apply _compute_nominal_transforms_Ok in Hrun2
    as [ecen2 [tss2 [Hcen2 [Hload2 [Htrav2 ->]]]]].
  rewrite Hload in Hl1. injection Hl1 as <-.
  rewrite Hload2 in Hl2. injection Hl2 as <-.
  destruct (load_pid_energy_param_setup _ _ Hload) as [Hg1 [Hn1 Hb1]].
  destruct (load_pid_energy_param_setup _ _ Hload2) as [Hg2 [Hn2 Hb2]].
  assert (ecen2 = ecen) as ->.
  { unfold energy_centers in Hcen, Hcen2. rewrite <- Hbinning in Hcen2.
    congruence. }
  rewrite Hg1 in Htrav. rewrite Hg2, <- Hgroups in Htrav2.
  split.
  - destruct (traverse_groups_blocks _ _ _ Htrav) as [curves [Hlen Hcat]].
    exists curves. split; [exact Hlen|]. rewrite Hcat.
    apply flat_map_ext. intros gc.
    rewrite (group_block_setup s1 self) by congruence. reflexivity.
  - change (filter (is_channel "trck") (concat tss2)
            = filter (is_channel "trck") (concat tss)).
    eapply traverse_groups_trck with (s := s1) (s' := s2);
      [congruence | congruence | exact Hd1 | exact Hd2 | exact Hk
      | exact Htrav | exact Htrav2].
Qed.

End Independence.

Section IndependenceExamples.

Import Demo.
#[local] Existing Instance demo_framework.

(** [overlap_stage] against [rewritten_stage]: the two runs return; the
    first is made of one pair of arrays for each of the two groups; their
    track transforms agree, their cascade transforms do not. *)
Lemma curves_shared_not_mixed_witness :
  exists s1 T s2 T2,
    _compute_nominal_transforms overlap_stage = (s1, Ok T) /\
    _compute_nominal_transforms rewritten_stage = (s2, Ok T2) /\
    (exists curves : list (ndarray * ndarray),
       length curves = 2 /\
       transforms T
       = flat_map
           (fun gc =>
              let inputs := filter (fun n => mem n (flavints (fst gc)))
                              ["numu_cc"; "nue_cc"; "muons"] in
              map (fun n =>
                     {| xform_input_names := n;
                        xform_output_name := (n ++ "_trck")%string;
                        xform_input_binning := [reco_energy];
                        xform_output_binning := [reco_energy];
                        xform_array := fst (snd gc) |}) inputs
              ++ map (fun n =>
                        {| xform_input_names := n;
                           xform_output_name := (n ++ "_cscd")%string;
                           xform_input_binning := [reco_energy];
                           xform_output_binning := [reco_energy];
                           xform_array := snd (snd gc) |}) inputs)
           (combine [numu_cc; nu_group] curves)) /\
    filter (fun t => String.eqb (xform_output_name t)
                       (xform_input_names t ++ "_trck"))
      (transforms T2)
    = filter (fun t => String.eqb (xform_output_name t)
                         (xform_input_names t ++ "_trck"))
        (transforms T) /\
    filter (is_channel "cscd") (transforms T2)
    <> filter (is_channel "cscd") (transforms T).
Proof.
  destruct (_compute_nominal_transforms overlap_stage) as [s1 [T|e]]
    eqn:Hrun; [|vm_compute in Hrun; discriminate Hrun].
  destruct (_compute_nominal_transforms rewritten_stage) as [s2 [T2|e]]
    eqn:Hrun2; [|vm_compute in Hrun2; discriminate Hrun2].
  assert (Hsetup : same_setup overlap_stage rewritten_stage)
    by (repeat split).
  assert (Hloads : loads overlap_stage demo_items)
    by (eexists; split; reflexivity).
  assert (Hloads2 : loads rewritten_stage
                      (with_cscd demo_items "numu_cc" numu_items
                         "lambda E: E"))
    by (eexists; split; reflexivity).
  destruct (@curves_shared_not_mixed demo_framework
              overlap_stage rewritten_stage s1 s2
              demo_items numu_items "numu_cc" "lambda E: E" T T2
              Hsetup Hloads Hloads2 eq_refl Hrun Hrun2)
    as [Hblocks Htrck].
  exists s1, T, s2, T2. split; [reflexivity|]. split; [reflexivity|].
  split; [exact Hblocks|]. split; [exact Htrck|].
  - vm_compute in Hrun, Hrun2.
    injection Hrun as _ <-. injection Hrun2 as _ <-.
    vm_compute. discriminate.
Defined.

End IndependenceExamples.

(** ** numpy: indexing, repeat and transposition *)

Section NumpyFacts.

Lemma nth_error_flat_map_block {A B} (f : A -> list B) (m : nat)
    (l : list A) (i j : nat) (x : A) :
  (forall y, In y l -> length (f y) = m) ->
  nth_error l i = Some x -> j < m ->
  nth_error (flat_map f l) (i * m + j) = nth_error (f x) j.
Proof.
  revert i. induction l as [|a l IH]; intros i Hlen Hi Hj.
  - now destruct i.
  - cbn [flat_map]. destruct i as [|i]; cbn [nth_error] in Hi.
    + injection Hi as ->. cbn [Nat.mul Nat.add].
      apply nth_error_app1. rewrite (Hlen x); [exact Hj | now left].
    + rewrite nth_error_app2; rewrite (Hlen a (or_introl eq_refl));
        [|simpl; lia].
      replace (S i * m + j - m) with (i * m + j) by (simpl; lia).
      apply IH; [|exact Hi|exact Hj].
      intros y Hy. apply Hlen. now right.
Qed.

Lemma nth_error_seq0 (n i : nat) : i < n -> nth_error (seq 0 n) i = Some i.
Proof.
  intros Hi. rewrite (nth_error_nth' (seq 0 n) 0) by (now rewrite length_seq).
  now rewrite seq_nth.
Qed.

Lemma length_indices (s : list nat) : length (indices s) = size_of s.
Proof.
  induction s as [|n s IH]; [reflexivity|].
  cbn [indices size_of fold_right]. fold (size_of s). rewrite <- IH.
  generalize 0 as start.
  induction n as [|n IHn]; intros start; cbn [seq flat_map]; [reflexivity|].
  rewrite length_app, length_map, IHn. simpl. lia.
Qed.

Lemma ravel_lt (s idx : list nat) :
  in_bounds s idx = true -> ravel s idx < size_of s.
Proof.
  revert idx. induction s as [|n s IH]; intros [|i idx]; simpl;
    try discriminate; [lia|].
  intros H. apply andb_true_iff in H as [Hi Hrest].
  apply Nat.ltb_lt in Hi. specialize (IH _ Hrest). fold (size_of s). nia.
Qed.

(** Position [ravel s idx] of the row-major enumeration holds [idx]. *)
Lemma nth_error_indices (s idx : list nat) :
  in_bounds s idx = true -> nth_error (indices s) (ravel s idx) = Some idx.
Proof.
  revert idx. induction s as [|n s IH]; intros [|i idx]; simpl;
    try discriminate; [reflexivity|].
  intros H. apply andb_true_iff in H as [Hi Hrest].
  apply Nat.ltb_lt in Hi.
  rewrite nth_error_flat_map_block with (x := i).
  - rewrite nth_error_map, (IH _ Hrest). reflexivity.
  - intros y _. now rewrite length_map, length_indices.
  - now apply nth_error_seq0.
  - now apply ravel_lt.
Qed.

(** Reading a transposed array is reading the source at the permuted
    index. *)
Lemma item_transpose (axes : list nat) (a : ndarray) (idx : list nat) :
  well_formed a ->
  in_bounds (shape (transpose axes a)) idx = true ->
  in_bounds (shape a) (source_index axes idx) = true ->
  item (transpose axes a) idx = item a (source_index axes idx).
Proof.
  intros Hwf Hin Hsrc. unfold item. rewrite Hin, Hsrc.
  cbn [transpose data shape] in *.
  rewrite nth_error_map, (nth_error_indices _ _ Hin). cbn [option_map].
  symmetry. apply nth_error_nth'. rewrite Hwf. now apply ravel_lt.
Qed.

(** [np.reshape(np.repeat(v, c), (len(v), c))]: row [i] is [c] copies of
    [v[i]]. *)
Lemma item_repeat_reshape (v : list Q) (r c : nat) (a : ndarray)
    (i j : nat) :
  length v = r ->
  np_reshape (np_repeat (array1 v) c) [r; c] = Ok a ->
  i < r -> j < c ->
  item a [i; j] = nth_error v i.
Proof.
  intros Hlen Hre Hi Hj. unfold np_reshape in Hre.
  destruct (_ =? _); [|discriminate]. injection Hre as <-.
  unfold item. cbn [shape data in_bounds np_repeat array1 ravel size_of
                    fold_right].
  destruct (Nat.ltb_spec i r); [|lia]. destruct (Nat.ltb_spec j c); [|lia].
  cbn [andb]. rewrite !Nat.mul_1_r, Nat.add_0_r.
  destruct (nth_error v i) as [x|] eqn:Hx.
  - rewrite nth_error_flat_map_block with (x := x) (m := c);
      [ now apply nth_error_repeat
      | intros y _; apply repeat_length
      | exact Hx
      | exact Hj ].
  - apply nth_error_None in Hx. lia.
Qed.

Lemma np_repeat_reshape_Ok (v : list Q) (c : nat) :
  np_reshape (np_repeat (array1 v) c) [length v; c]
  = Ok {| shape := [length v; c];
          data := flat_map (fun x => repeat x c) v |}.
Proof.
  unfold np_reshape. cbn [np_repeat array1 data size_of fold_right].
  assert (Hlen : length (flat_map (fun x : Q => repeat x c) v)
                 = length v * (c * 1)).
  { induction v as [|x v IH]; [reflexivity|].
    cbn [flat_map]. rewrite length_app, repeat_length, IH. simpl. lia. }
  rewrite Hlen, Nat.eqb_refl. reflexivity.
Qed.

End NumpyFacts.

(** ** The curve array has the shape of the binning *)

Section CurveShape.

Context `{FW : Framework}.

Lemma well_formed_repeat_reshape (v : list Q) (c : nat) :
  well_formed {| shape := [length v; c];
                 data := flat_map (fun x => repeat x c) v |}.
Proof.
  unfold well_formed. cbn [shape data size_of fold_right].
  induction v as [|x v IH]; [reflexivity|].
  cbn [flat_map]. rewrite length_app, repeat_length, IH. simpl. lia.
Qed.

(** C2 (amended): let the callable return, at the energy centres, a 1-D
    array with one value per centre, and let every axis have one centre per
    bin.  With an energy-only binning the curve array is that 1-D array, of
    the shape of the binning.  With energy and zenith, in either declared
    order, it is a 2-D array of the shape of the binning whose value at
    energy index [i] and zenith index [j] is the curve's value at [i]. *)
Theorem curve_array_shape (self : Stage) (ecen pid1d : list Q) (f : callable) :
  f ecen = Ok (array1 pid1d) ->
  length pid1d = length ecen ->
  (forall energy,
     input_binning self = [energy] ->
     name energy = "reco_energy" ->
     weighted_centers energy = ecen ->
     length (weighted_centers energy) = num_bins energy ->
     curve_array self ecen f = Ok (array1 pid1d) /\
     shape (array1 pid1d) = binning_shape (input_binning self)) /\
  (forall energy coszen,
     input_binning self = [energy; coszen] ->
     name energy = "reco_energy" -> name coszen = "reco_coszen" ->
     weighted_centers energy = ecen ->
     length (weighted_centers energy) = num_bins energy ->
     length (weighted_centers coszen) = num_bins coszen ->
     exists a,
       curve_array self ecen f = Ok a /\
       shape a = binning_shape (input_binning self) /\
       forall i j, i < num_bins energy -> j < num_bins coszen ->
                   item a [i; j] = nth_error pid1d i) /\
  (forall coszen energy,
     input_binning self = [coszen; energy] ->
     name coszen = "reco_coszen" -> name energy = "reco_energy" ->
     weighted_centers energy = ecen ->
     length (weighted_centers energy) = num_bins energy ->
     length (weighted_centers coszen) = num_bins coszen ->
     exists a,
       curve_array self ecen f = Ok a /\
       shape a = binning_shape (input_binning self) /\
       forall i j, i < num_bins energy -> j < num_bins coszen ->
                   item a [j; i] = nth_error pid1d i).
Proof.
  intros Hf Hlen. unfold curve_array. rewrite Hf. cbn [bind].
  split; [|split].
  - intros energy Hb Hname Hcen Hbins. rewrite Hb.
    cbn [names map mem existsb binning_shape]. rewrite Hname.
    cbn. split; [reflexivity|]. unfold array1. cbn [shape].
    now rewrite Hlen, <- Hcen, Hbins.
  - intros energy coszen Hb Hne Hnz Hcen He Hz. rewrite Hb.
    cbn [names map mem existsb getdim binning_shape]. rewrite Hne, Hnz.
    cbn [String.eqb Ascii.eqb Bool.eqb orb bind].
    rewrite <- Hlen, np_repeat_reshape_Ok. cbn [bind].
    eexists. split; [reflexivity|]. cbn [shape]. split.
    + now rewrite Hlen, <- Hcen, He, Hz.
    + intros i j Hi Hj.
      apply item_repeat_reshape
        with (r := length pid1d) (c := length (weighted_centers coszen));
        [reflexivity | apply np_repeat_reshape_Ok | | ]; try lia.
      rewrite Hlen, <- Hcen. lia.
  - intros coszen energy Hb Hnz Hne Hcen He Hz. rewrite Hb.
    cbn [names map mem existsb getdim binning_shape]. rewrite Hne, Hnz.
    cbn [String.eqb Ascii.eqb Bool.eqb orb bind].
    rewrite <- Hlen, np_repeat_reshape_Ok. cbn [bind].
    eexists. split; [reflexivity|].
    assert (Hi' : forall i, i < num_bins energy -> i < length pid1d)
      by (intros i Hi; rewrite Hlen, <- Hcen; lia).
    split.
    + cbn. now rewrite Hlen, <- Hcen, He, Hz.
    + intros i j Hi Hj. apply Hi' in Hi. rewrite <- Hz in Hj.
      unfold T. cbn [ndim shape length seq rev app].
      rewrite item_transpose.
      * cbn [source_index length seq map index_of Nat.eqb nth].
        apply item_repeat_reshape
          with (r := length pid1d) (c := length (weighted_centers coszen));
          [reflexivity | apply np_repeat_reshape_Ok | exact Hi | exact Hj].
      * apply well_formed_repeat_reshape.
      * cbn [transpose shape map nth in_bounds].
        destruct (Nat.ltb_spec j (length (weighted_centers coszen))); [|lia].
        destruct (Nat.ltb_spec i (length pid1d)); [reflexivity|lia].
      * cbn [source_index length seq map index_of Nat.eqb nth shape
               in_bounds].
        destruct (Nat.ltb_spec i (length pid1d)); [|lia].
        destruct (Nat.ltb_spec j (length (weighted_centers coszen)));
          [reflexivity|lia].
Qed.

End CurveShape.

Section CurveShapeExamples.

Import Demo.
#[local] Existing Instance demo_framework.

(** The identity curve over the three energy centres, on a binning led by
    zenith: a 2 x 3 array whose rows are the curve. *)
Lemma curve_array_shape_witness :
  let self := fresh_stage [numu_cc] ["numu_cc"] [reco_coszen; reco_energy]
                demo_param_dict in
  exists a,
    curve_array self [1%Q; 10%Q; 100%Q] (fun E => Ok (array1 E)) = Ok a /\
    shape a = [2; 3] /\
    item a [0; 2] = Some 100%Q /\ item a [1; 2] = Some 100%Q /\
    item a [1; 0] = Some 1%Q.
Proof.
  intros self.
  destruct (proj2 (proj2
              (@curve_array_shape self [1%Q; 10%Q; 100%Q]
                 [1%Q; 10%Q; 100%Q] (fun E => Ok (array1 E))
                 eq_refl eq_refl))
              reco_coszen reco_energy
              eq_refl eq_refl eq_refl eq_refl eq_refl eq_refl)
    as [a [Hrun [Hshape Hitem]]].
  exists a. split; [exact Hrun|]. split; [exact Hshape|].
  split; [|split].
  - apply (Hitem 2 0); unfold num_bins; simpl; lia.
  - apply (Hitem 2 1); unfold num_bins; simpl; lia.
  - apply (Hitem 0 1); unfold num_bins; simpl; lia.
Defined.

(** Outside the two supported layouts nothing is broadcast: with an axis
    other than zenith next to energy, a binning [validate_binning] lets
    through, the curve array stays 1-D. *)
Lemma curve_array_other_axis_example :
  let self := fresh_stage [numu_cc] ["numu_cc"] [reco_energy; declared_pid]
                demo_param_dict in
  validate_binning self = Ok tt /\
  curve_array self [1%Q; 10%Q; 100%Q] (fun E => Ok (array1 E))
  = Ok (array1 [1%Q; 10%Q; 100%Q]) /\
  binning_shape (input_binning self) = [3; 2].
Proof. repeat split. Qed.

(** C2 as stated fails where the callable does not return one value per
    energy centre, which nothing checks on an energy-only binning.  The
    function of [lambda E: 0.9] returns the plain number: the curve array
    is that number, without axes, over a binning of shape [[3]]; and so
    are the arrays of all transforms the method returns for such
    expressions.  A function returning a single-element array leaves a 1-D
    array of length 1 over the three bins. *)
Lemma curve_array_shape_counterexample :
  validate_binning numu_stage = Ok tt /\
  binning_shape (input_binning numu_stage) = [3] /\
  curve_array numu_stage [1%Q; 10%Q; 100%Q] (fun _ => Ok (scalar 0.9%Q))
  = Ok (scalar 0.9%Q) /\
  shape (scalar 0.9%Q) = [] /\
  curve_array numu_stage [1%Q; 10%Q; 100%Q] (fun _ => Ok (array1 [0.5%Q]))
  = Ok (array1 [0.5%Q]) /\
  shape (array1 [0.5%Q]) = [1] /\
  exists self' T,
    _compute_nominal_transforms constant_stage = (self', Ok T) /\
    transforms T <> [] /\
    forall t, In t (transforms T) ->
      shape (xform_array t) = [] /\
      shape (xform_array t) <> binning_shape (xform_input_binning t).
Proof.
  do 6 (split; [reflexivity|]).
  eexists. eexists. split; [reflexivity|]. split; [discriminate|].
  cbn [transforms]. intros t [<-|[<-|[]]]; split;
    try reflexivity; discriminate.
Qed.

End CurveShapeExamples.

(** ** Output assembly *)

Section Recombination.

Context `{FW : Framework}.

Lemma shape_eqb_refl (s : list nat) : shape_eqb s s = true.
Proof.
  induction s as [|n s IH]; [reflexivity|].
  simpl. now rewrite Nat.eqb_refl.
Qed.

Lemma recombine_loop_spec (self : Stage) (outputs : MapSet)
    (out_names : list string) (acc : list Map) :
  recombine_loop self outputs out_names acc
  = (new_maps <- traverse (recombined_map self outputs) out_names ;;
     Ok (acc ++ new_maps)).
Proof.
  revert acc. induction out_names as [|n rest IH]; intros acc;
    cbn [recombine_loop traverse bind].
  - now rewrite app_nil_r.
  - destruct (recombined_map self outputs n) as [m|e]; cbn [bind];
      [|reflexivity].
    rewrite IH.
    destruct (traverse (recombined_map self outputs) rest) as [ms|e];
      cbn [bind]; [|reflexivity].
    now rewrite <- app_assoc.
Qed.

(** Two 2-D histograms of one shape: after stacking and rolling, the
    classification axis is the last one, cascade at 0 and track at 1. *)
Lemma stack_roll_2d (cscd trck : ndarray) (r k : nat) :
  shape cscd = [r; k] -> shape trck = [r; k] ->
  well_formed cscd -> well_formed trck ->
  exists hist,
    (stacked <- np_array2 cscd trck ;; np_rollaxis stacked 0 3) = Ok hist /\
    shape hist = [r; k; 2] /\
    forall i j, i < r -> j < k ->
      item hist [i; j; 0] = item cscd [i; j]
      /\ item hist [i; j; 1] = item trck [i; j].
Proof.
  intros Hc Ht Hwc Hwt. unfold np_array2, well_formed in *.
  rewrite Hc, Ht in *. rewrite shape_eqb_refl. cbn [bind].
  unfold np_rollaxis. cbn [ndim shape length Nat.ltb Nat.leb negb Nat.add
                             Nat.sub Nat.eqb seq list_remove list_insert
                             firstn skipn app].
  eexists. split; [reflexivity|]. split.
  - cbn [transpose shape map nth]. reflexivity.
  - intros i j Hi Hj.
    assert (Hb : forall p, p < 2 ->
      in_bounds [r; k; 2] [i; j; p] = true
      /\ in_bounds [2; r; k] [p; i; j] = true).
    { intros p Hp. cbn [in_bounds].
      destruct (Nat.ltb_spec i r); [|lia].
      destruct (Nat.ltb_spec j k); [|lia].
      destruct (Nat.ltb_spec p 2); [auto|lia]. }
    assert (Hrav : ravel [r; k] [i; j] < r * (k * 1)).
    { cbn [ravel size_of fold_right]. nia. }
    cbn [size_of fold_right] in Hwc, Hwt.
    split.
    + rewrite item_transpose;
        [ | unfold well_formed; cbn [data shape size_of fold_right];
            rewrite length_app; lia
          | apply (Hb 0); lia | apply (Hb 0); lia ].
      cbn [source_index length seq map index_of Nat.eqb nth].
      unfold item. cbn [shape data]. rewrite (proj2 (Hb 0 ltac:(lia))).
      rewrite Hc. cbn [in_bounds].
      destruct (Nat.ltb_spec i r); [|lia].
      destruct (Nat.ltb_spec j k); [|lia]. cbn [andb].
      cbn [ravel size_of fold_right] in *.
      rewrite nth_error_app1 by lia. f_equal.
    + rewrite item_transpose;
        [ | unfold well_formed; cbn [data shape size_of fold_right];
            rewrite length_app; lia
          | apply (Hb 1); lia | apply (Hb 1); lia ].
      cbn [source_index length seq map index_of Nat.eqb nth].
      unfold item. cbn [shape data]. rewrite (proj2 (Hb 1 ltac:(lia))).
      rewrite Ht. cbn [in_bounds].
      destruct (Nat.ltb_spec i r); [|lia].
      destruct (Nat.ltb_spec j k); [|lia]. cbn [andb].
      cbn [ravel size_of fold_right] in *.
      rewrite nth_error_app2 by lia. f_equal. lia.
Qed.

(** Two 1-D histograms of one shape: the stack has two axes and
    [rollaxis] refuses [start = 3]. *)
Lemma stack_roll_1d (cscd trck : ndarray) :
  ndim cscd = 1 -> shape cscd = shape trck ->
  (stacked <- np_array2 cscd trck ;; np_rollaxis stacked 0 3)
  = Raise (ValueError (RollaxisStart 3 3)).
Proof.
  intros Hdim Hshape. unfold np_array2. rewrite <- Hshape, shape_eqb_refl.
  cbn [bind]. unfold np_rollaxis, ndim in *. cbn [shape length].
  rewrite Hdim. reflexivity.
Qed.

(** With a 1-D histogram pair for a name, no map is recombined for it. *)
Lemma recombined_map_1d (self : Stage) (outputs : MapSet) (name : string)
    (cscd trck : Map) :
  mapset_getitem (maps outputs) (name ++ "_cscd")%string = Ok cscd ->
  mapset_getitem (maps outputs) (name ++ "_trck")%string = Ok trck ->
  ndim (map_hist cscd) = 1 ->
  shape (map_hist cscd) = shape (map_hist trck) ->
  recombined_map self outputs name = Raise (ValueError (RollaxisStart 3 3)).
Proof.
  intros Hc Ht Hdim Hshape. unfold recombined_map. rewrite Hc, Ht.
  cbn [bind].
  pose proof (stack_roll_1d _ _ Hdim Hshape) as H.
  destruct (np_array2 (map_hist cscd) (map_hist trck)) as [st|e];
    cbn [bind] in *; [|congruence].
  now rewrite H.
Qed.

Lemma recombined_map_Ok (self : Stage) (outputs : MapSet) (name : string) :
  recombinable outputs name ->
  exists m, recombined_map self outputs name = Ok m /\
            map_name m = name /\ map_binning m = output_binning self.
Proof.
  intros [cscd [trck [Hc [Ht [Hshape Hdim]]]]].
  unfold recombined_map. rewrite Hc, Ht. cbn [bind].
  unfold np_array2. rewrite <- Hshape, shape_eqb_refl. cbn [bind].
  unfold np_rollaxis, ndim in *. cbn [shape length]. rewrite Hdim.
  cbn. eexists. split; [reflexivity|]. auto.
Qed.

Lemma traverse_recombined (self : Stage) (outputs : MapSet)
    (out_names : list string) :
  (forall n, In n out_names -> recombinable outputs n) ->
  exists ms,
    traverse (recombined_map self outputs) out_names = Ok ms /\
    map map_name ms = out_names /\
    forall m, In m ms -> map_binning m = output_binning self.
Proof.
  induction out_names as [|n rest IH]; intros Hall.
  - exists []. repeat split. intros m [].
  - destruct (recombined_map_Ok self (Hall n (or_introl eq_refl)))
      as [m [Hm [Hname Hbin]]].
    destruct IH as [ms [Hms [Hnames Hbins]]];
      [intros n' Hn'; apply Hall; now right|].
    exists (m :: ms). cbn [traverse]. rewrite Hm, Hms. cbn [bind].
    split; [reflexivity|]. split; [simpl; now rewrite Hname, Hnames|].
    intros m' [<-|Hin]; auto.
Qed.

(** C9: let the base class return [outputs].  If the requested output
    binning has no [pid] axis, the stage's output binning becomes the
    requested one with the synthetic axis appended, an axis of three edges
    and two bins; if it has one, the requested binning is kept as it is.
    When every output name has its two channel maps with 2-D histograms,
    the method returns one map per output name, each built against
    that binning. *)
Theorem get_outputs_binning (self self1 : Stage) (inputs : option MapSet)
    (outputs : MapSet) :
  base_get_outputs (set_output_binning self (input_binning self)) inputs
  = (self1, Ok outputs) ->
  let requested := output_binning self in
  (mem "pid" (names requested) = false ->
     final_output_binning requested = requested ++ [dummy_pid]
     /\ name dummy_pid = "pid"
     /\ length (bin_edges dummy_pid) = 3 /\ num_bins dummy_pid = 2) /\
  (mem "pid" (names requested) = true ->
     final_output_binning requested = requested) /\
  output_binning (fst (get_outputs self inputs))
  = final_output_binning requested /\
  ((forall n, In n (output_names self1) -> recombinable outputs n) ->
   exists new_outputs,
     snd (get_outputs self inputs) = Ok new_outputs /\
     map map_name (maps new_outputs) = output_names self1 /\
     forall m, In m (maps new_outputs) ->
               map_binning m = final_output_binning requested).
Proof.
  intros Hbase requested. unfold final_output_binning.
  split; [|split; [|split]].
  - intros Hno. rewrite Hno. repeat split.
  - intros Hyes. now rewrite Hyes.
  - unfold get_outputs. rewrite Hbase. fold requested.
    now destruct (mem "pid" (names requested)).
  - intros Hall. unfold get_outputs. rewrite Hbase. fold requested.
    cbn [snd]. rewrite recombine_loop_spec.
    set (final := if negb (mem "pid" (names requested))
                  then set_output_binning self1
                         (binning_add requested dummy_pid)
                  else set_output_binning self1 requested).
    assert (Hnames : output_names final = output_names self1)
      by (unfold final; now destruct (mem "pid" (names requested))).
    assert (Hbin : output_binning final
                   = if mem "pid" (names requested) then requested
                     else binning_add requested dummy_pid)
      by (unfold final; now destruct (mem "pid" (names requested))).
    destruct (traverse_recombined final (outputs := outputs)
                (output_names final))
      as [ms [Hms [Hn Hb]]]; [now rewrite Hnames|].
    rewrite Hms. cbn [bind app]. eexists. split; [reflexivity|].
    cbn [maps]. split; [now rewrite Hn|].
    intros m Hm. now rewrite (Hb m Hm).
Qed.

End Recombination.

Section RecombinationExamples.

Import Demo.
#[local] Existing Instance pipeline_framework.

(** [plane_stage] asks for no [pid] axis and gets the synthetic one;
    [declared_stage] declares one and keeps it. *)
Lemma get_outputs_binning_witness :
  (exists new_outputs,
     snd (get_outputs plane_stage (Some plane_inputs)) = Ok new_outputs /\
     map map_name (maps new_outputs) = ["numu_cc"] /\
     forall m, In m (maps new_outputs) ->
               map_binning m = [reco_energy; reco_coszen; dummy_pid]) /\
  output_binning (fst (get_outputs plane_stage (Some plane_inputs)))
  = [reco_energy; reco_coszen; dummy_pid] /\
  output_binning (fst (get_outputs declared_stage (Some plane_inputs)))
  = [reco_energy; reco_coszen; declared_pid].
Proof.
  destruct (base_get_outputs
              (set_output_binning plane_stage (input_binning plane_stage))
              (Some plane_inputs)) as [s1 [outputs|e]] eqn:Hbase;
    [|vm_compute in Hbase; discriminate Hbase].
  destruct (base_get_outputs
              (set_output_binning declared_stage
                 (input_binning declared_stage))
              (Some plane_inputs)) as [s2 [outputs2|e]] eqn:Hbase2;
    [|vm_compute in Hbase2; discriminate Hbase2].
  destruct (@get_outputs_binning pipeline_framework plane_stage s1
              (Some plane_inputs) outputs Hbase)
    as [_ [_ [Hstage Hmaps]]].
  destruct (@get_outputs_binning pipeline_framework declared_stage s2
              (Some plane_inputs) outputs2 Hbase2)
    as [_ [_ [Hstage2 _]]].
  split; [|split; [exact Hstage | exact Hstage2]].
  destruct Hmaps as [new_outputs [Hrun [Hnames Hbin]]].
  - vm_compute in Hbase. injection Hbase as <- <-.
    intros n [<-|[]]. eexists. eexists.
    split; [reflexivity|]. split; [reflexivity|]. split; reflexivity.
  - exists new_outputs. split; [exact Hrun|]. split; [|exact Hbin].
    rewrite Hnames. vm_compute in Hbase. now injection Hbase as <- _.
Defined.

(** C3, the failing input: [numu_stage] is binned in energy only.  The
    base class returns the two 1-D channel histograms of [numu_cc], and
    the recombination stops in [rollaxis]: no histogram with a last axis
    (cascade, track) is produced. *)
Theorem get_outputs_energy_only_raises :
  (exists self1 outputs cscd trck,
     base_get_outputs
       (set_output_binning numu_stage (input_binning numu_stage))
       (Some energy_inputs) = (self1, Ok outputs) /\
     mapset_getitem (maps outputs) "numu_cc_cscd" = Ok cscd /\
     mapset_getitem (maps outputs) "numu_cc_trck" = Ok trck /\
     map_hist cscd = array1 [1%Q; 2%Q; 3%Q] /\
     map_hist trck = array1 [9%Q; 18%Q; 27%Q]) /\
  snd (get_outputs numu_stage (Some energy_inputs))
  = Raise (ValueError (RollaxisStart 3 3)).
Proof.
  split; [|reflexivity].
  eexists. eexists. eexists. eexists.
  split; [reflexivity|]. split; [reflexivity|]. split; [reflexivity|].
  split; reflexivity.
Qed.

(** On energy and zenith the recombination does what is meant: the last
    axis of the 3 x 2 x 2 result is (cascade, track). *)
Lemma get_outputs_plane_example :
  exists new_outputs m,
    snd (get_outputs plane_stage (Some plane_inputs)) = Ok new_outputs /\
    maps new_outputs = [m] /\
    shape (map_hist m) = [3; 2; 2] /\
    item (map_hist m) [2; 1; 0] = Some 6%Q /\
    item (map_hist m) [2; 1; 1] = Some 54%Q.
Proof.
  eexists. eexists. split; [reflexivity|]. split; [reflexivity|].
  split; [reflexivity|]. split; reflexivity.
Qed.

(** Channel histograms over three axes: the classification axis ends up
    third of four, before the last binning axis. *)
Lemma stack_roll_3d_example :
  exists hist,
    (stacked <- np_array2 (cube 0) (cube 100) ;; np_rollaxis stacked 0 3)
    = Ok hist /\
    shape hist = [2; 2; 2; 3] /\
    item hist [1; 0; 0; 2] = item (cube 0) [1; 0; 2] /\
    item hist [1; 0; 1; 2] = item (cube 100) [1; 0; 2].
Proof.
  eexists. split; [reflexivity|]. split; [reflexivity|].
  split; reflexivity.
Qed.

End RecombinationExamples.

(* ================================================================== *)
(** * Further properties of the stage's code *)
(* ================================================================== *)

(** ** Loader, parameter validation and lookup together *)

Section LoaderMore.

Context `{FW : Framework}.

Lemma cache_miss (self : Stage) (source : pyobj) :
  _energy_param_hash self <> Some (hash_obj source) ->
  match _energy_param_hash self with
  | Some h => Z.eqb (hash_obj source) h
  | None => false
  end = false.
Proof.
  intros Hmiss. destruct (_energy_param_hash self) as [h|]; [|reflexivity].
  apply Z.eqb_neq. intros Heq. apply Hmiss. now rewrite Heq.
Qed.

(** X1: a source that [validate_params] accepts (a string or a mapping)
    makes the loader fail only if [from_file] fails on it, with that very
    error; a source it refuses makes the loader fail with
    [UnboundLocalError] and leave the stage as it is, unless the stored
    fingerprint happens to equal the source's. *)
Theorem validate_params_guards_loader (self : Stage) (f : pyobj) :
  (validate_params f = inr tt <->
     (exists resource, f = PyStr resource) \/ (exists d, f = PyDict d)) /\
  (validate_params f = inr tt ->
     forall self' e,
       load_pid_energy_param self f = (self', Raise e) ->
       exists resource, f = PyStr resource /\ from_file resource = Raise e) /\
  (validate_params f <> inr tt ->
     _energy_param_hash self <> Some (hash_obj f) ->
     validate_params f = inl (ParamfileTypeError (type_of f)) /\
     load_pid_energy_param self f
     = (self, Raise (UnboundLocalError "energy_param_dict"))).
Proof.
  split; [|split].
  - destruct f; simpl; split;
      try discriminate; try (intros [[r [=]]|[d [=]]]); eauto.
  - intros Hvalid self' e. unfold load_pid_energy_param.
    destruct (match _energy_param_hash self with
              | Some h => Z.eqb (hash_obj f) h
              | None => false
              end); [discriminate|].
    destruct f; try discriminate Hvalid.
    + destruct (from_file s) as [d|e'] eqn:Hfile; [discriminate|].
      intros [= _ <-]. eauto.
    + discriminate.
  - intros Hbad Hmiss. unfold load_pid_energy_param.
    rewrite (cache_miss self f Hmiss).
    destruct f; simpl in *; try (split; reflexivity); now contradiction Hbad.
Qed.

(** X2: whatever the loader does, groups, names, binnings and the source
    stay; it reads at most one resource, and only for a string source; and
    when it raises, the stored mapping and fingerprint stay as well. *)
Theorem load_pid_energy_param_frame (self self' : Stage) (source : pyobj)
    (r : result unit) :
  load_pid_energy_param self source = (self', r) ->
  (transform_groups self' = transform_groups self /\
   input_names self' = input_names self /\
   output_names self' = output_names self /\
   input_binning self' = input_binning self /\
   output_binning self' = output_binning self /\
   pid_energy_paramfile self' = pid_energy_paramfile self) /\
  (from_file_calls self' = from_file_calls self \/
   exists resource, source = PyStr resource /\
     from_file_calls self' = from_file_calls self ++ [resource]) /\
  (forall e, r = Raise e ->
     energy_param_dict self' = energy_param_dict self /\
     _energy_param_hash self' = _energy_param_hash self).
Proof.
  unfold load_pid_energy_param.
  destruct (match _energy_param_hash self with
            | Some h => Z.eqb (hash_obj source) h
            | None => false
            end).
  - intros [= <- <-]. repeat split; auto.
  - destruct source;
      try (intros [= <- <-]; repeat split; auto; discriminate).
    destruct (from_file s); intros [= <- <-];
      (split; [repeat split|split; [right; eauto|]]);
      intros e'; [discriminate | intros _; split; reflexivity].
Qed.

Lemma load_inline (self : Stage) (d : list (string * pyobj)) :
  _energy_param_hash self <> Some (hash_obj (PyDict d)) ->
  load_pid_energy_param self (PyDict d)
  = (set_energy_param self (PyDict d) (hash_obj (PyDict d)), Ok tt).
Proof.
  intros Hmiss. unfold load_pid_energy_param.
  now rewrite (cache_miss self (PyDict d) Hmiss).
Qed.

(** X3: after the load of an inline mapping that is not already cached,
    no resource has been read and every key of the mapping is found, with
    the value the mapping holds for it. *)
Theorem load_then_find (self : Stage) (d : list (string * pyobj)) :
  _energy_param_hash self <> Some (hash_obj (PyDict d)) ->
  exists self',
    load_pid_energy_param self (PyDict d) = (self', Ok tt) /\
    from_file_calls self' = from_file_calls self /\
    forall k v, getitem d k = Some v -> find_energy_param self' k = Ok v.
Proof.
  intros Hmiss. eexists. split; [now apply load_inline|].
  split; [reflexivity|].
  intros k v Hget.
  apply find_energy_param_exact with (items := d); [reflexivity | exact Hget].
Qed.

(** X4: a resource that decodes to something other than a mapping is
    loaded without complaint; the failure comes later, at the first group
    looked up, as an [AttributeError]; with no group at all the method
    returns an empty TransformSet. *)
Theorem non_mapping_resource_fails_late (self : Stage) (resource : string)
    (o : pyobj) (ecen : list Q) :
  pid_energy_paramfile self = PyStr resource ->
  _energy_param_hash self <> Some (hash_obj (PyStr resource)) ->
  from_file resource = Ok o ->
  (forall items, o <> PyDict items) ->
  energy_centers self = Ok ecen ->
  fst (load_pid_energy_param self (PyStr resource))
  = set_energy_param (log_from_file self resource) o
      (hash_obj (PyStr resource)) /\
  snd (load_pid_energy_param self (PyStr resource)) = Ok tt /\
  (transform_groups self <> [] ->
   snd (_compute_nominal_transforms self)
   = Raise (AttributeError "energy_param_dict" "keys")) /\
  (transform_groups self = [] ->
   snd (_compute_nominal_transforms self) = Ok {| transforms := [] |}).
Proof.
  intros Hsrc Hmiss Hfile Hnot Hcen.
  assert (Hload : load_pid_energy_param self (PyStr resource)
                  = (set_energy_param (log_from_file self resource) o
                       (hash_obj (PyStr resource)), Ok tt)).
  { unfold load_pid_energy_param.
    now rewrite (cache_miss self (PyStr resource) Hmiss), Hfile. }
  rewrite Hload. split; [reflexivity|]. split; [reflexivity|].
  rewrite _compute_nominal_transforms_spec, Hcen, Hsrc, Hload.
  cbn [snd transform_groups set_energy_param log_from_file].
  split.
  - destruct (transform_groups self) as [|g rest]; [congruence|].
    intros _. cbn [traverse]. unfold group_transforms at 1.
    unfold group_energy_param, find_energy_param.
    cbn [energy_param_dict set_energy_param].
    destruct o; try reflexivity. now contradiction (Hnot items).
  - intros ->. reflexivity.
Qed.

(** X5: whatever [find_energy_param] returns is a value of the loaded
    mapping: the one under the name itself, or, for an absent name with a
    '+' whose last part without 'bar' is its first part, the one under
    that first part. *)
Theorem find_energy_param_sound (self : Stage) (flavstr : string)
    (entry : pyobj) :
  find_energy_param self flavstr = Ok entry ->
  exists items,
    energy_param_dict self = Some (PyDict items) /\
    (getitem items flavstr = Some entry \/
     (~ In flavstr (keys items) /\ str_in "+" flavstr = true /\
      str_replace "bar" "" (last_part (str_split "+"%char flavstr))
      = first_part (str_split "+"%char flavstr) /\
      getitem items (first_part (str_split "+"%char flavstr)) = Some entry)).
Proof.
  unfold find_energy_param, dict_getitem.
  destruct (energy_param_dict self) as [[| | | | |items]|]; try discriminate.
  intros H. exists items. split; [reflexivity|].
  destruct (mem flavstr (keys items)) eqn:Hin; cbn [negb] in H.
  - left. destruct (getitem items flavstr); [congruence|discriminate].
  - right. apply mem_not_In in Hin.
    destruct (str_in "+" flavstr); [|discriminate].
    destruct (String.eqb_spec
                (str_replace "bar" ""
                   (last_part (str_split "+"%char flavstr)))
                (first_part (str_split "+"%char flavstr))) as [Heq|];
      [|discriminate].
    destruct (mem (first_part (str_split "+"%char flavstr)) (keys items));
      [|discriminate].
    destruct (getitem items (first_part (str_split "+"%char flavstr)));
      [|discriminate].
    injection H as ->. auto.
Qed.

End LoaderMore.

Section LoaderMoreExamples.

Import Demo MoreDemo.
#[local] Existing Instance demo_framework.

(** A number as source is refused by both; a missing resource is accepted
    by [validate_params] and fails in the loader with the reader's error. *)
Lemma validate_params_guards_loader_witness :
  (validate_params (PyNum 1%Q) = inl (ParamfileTypeError TNum) /\
   load_pid_energy_param numu_stage (PyNum 1%Q)
   = (numu_stage, Raise (UnboundLocalError "energy_param_dict"))) /\
  (exists resource,
     PyStr "pid/missing.json" = PyStr resource /\
     from_file resource = Raise (External "IOError")).
Proof.
  destruct (@validate_params_guards_loader demo_framework numu_stage
              (PyNum 1%Q)) as [_ [_ Hbad]].
  destruct (@validate_params_guards_loader demo_framework numu_stage
              (PyStr "pid/missing.json")) as [_ [Hgood _]].
  split.
  - apply Hbad; discriminate.
  - apply (Hgood eq_refl
             (log_from_file numu_stage "pid/missing.json")
             (External "IOError")).
    reflexivity.
Defined.

(** A failed read on a stage that holds a mapping: the mapping stays. *)
Lemma load_pid_energy_param_frame_witness :
  let self := loaded_stage demo_param_dict in
  let self' := fst (load_pid_energy_param self (PyStr "pid/missing.json")) in
  energy_param_dict self' = Some demo_param_dict /\
  from_file_calls self' = ["pid/missing.json"] /\
  input_binning self' = [reco_energy].
Proof.
  intros self self'.
  destruct (@load_pid_energy_param_frame demo_framework self self'
              (PyStr "pid/missing.json") (Raise (External "IOError"))
              eq_refl) as [[_ [_ [_ [Hb _]]]] [Hreads Hcache]].
  split; [exact (proj1 (Hcache _ eq_refl))|]. split; [|exact Hb].
  destruct Hreads as [Hnone|[resource [[= <-] Hone]]];
    [discriminate Hnone | exact Hone].
Defined.

Lemma load_then_find_witness :
  exists self',
    load_pid_energy_param numu_stage (PyDict demo_items) = (self', Ok tt) /\
    from_file_calls self' = [] /\
    find_energy_param self' "nu" = Ok numu_entry.
Proof.
  destruct (@load_then_find demo_framework numu_stage demo_items)
    as [self' [Hload [Hreads Hfind]]]; [discriminate|].
  exists self'. split; [exact Hload|]. split; [exact Hreads|].
  apply Hfind. reflexivity.
Defined.

Lemma non_mapping_resource_fails_late_witness :
  snd (@load_pid_energy_param list_framework list_stage
         (PyStr "pid/not_a_mapping.json")) = Ok tt /\
  snd (@_compute_nominal_transforms list_framework list_stage)
  = Raise (AttributeError "energy_param_dict" "keys").
Proof.
  destruct (@non_mapping_resource_fails_late list_framework list_stage
              "pid/not_a_mapping.json" (PyList [PyStr "trck"; PyStr "cscd"])
              [1%Q; 10%Q; 100%Q] eq_refl)
    as [_ [Hload [Hfail _]]];
    try reflexivity; try discriminate.
  split; [exact Hload|]. apply Hfail. discriminate.
Defined.

Lemma find_energy_param_sound_witness :
  exists items,
    energy_param_dict (loaded_stage demo_param_dict) = Some (PyDict items) /\
    (getitem items "nu+nubar" = Some numu_entry \/
     (~ In "nu+nubar" (keys items) /\ str_in "+" "nu+nubar" = true /\
      str_replace "bar" "" (last_part (str_split "+"%char "nu+nubar"))
      = first_part (str_split "+"%char "nu+nubar") /\
      getitem items (first_part (str_split "+"%char "nu+nubar"))
      = Some numu_entry)).
Proof.
  apply (@find_energy_param_sound (loaded_stage demo_param_dict)
           "nu+nubar" numu_entry).
  reflexivity.
Defined.

End LoaderMoreExamples.

(** ** Two-part names *)

Section PairNames.

Context `{FW : Framework}.

Lemma str_in_plus_app (X Y : string) : str_in "+" (X ++ "+" ++ Y) = true.
Proof.
  change ("+" ++ Y)%string with (String "+"%char Y).
  induction X as [|c X IH]; cbn [append str_in].
  - rewrite prefix_plus. reflexivity.
  - rewrite IH. apply orb_true_r.
Qed.

(** Where [old] does not occur, [replace] changes nothing. *)
Lemma str_replace_absent (old new s : string) :
  old <> EmptyString -> str_in old s = false -> str_replace old new s = s.
Proof.
  intros Hold. destruct old as [|c old]; [contradiction|].
  unfold str_replace. induction s as [|a s IH]; [reflexivity|].
  cbn [str_in]. intros H. apply orb_false_iff in H as [Hpre Hrest].
  cbn [replace_from]. rewrite Hpre. now rewrite (IH Hrest).
Qed.

(** The lookup of an absent two-part name, as one equation. *)
Lemma find_energy_param_pair (self : Stage) (items : list (string * pyobj))
    (X Y : string) :
  energy_param_dict self = Some (PyDict items) ->
  str_in "+" X = false -> str_in "+" Y = false ->
  ~ In (X ++ "+" ++ Y)%string (keys items) ->
  find_energy_param self (X ++ "+" ++ Y)
  = if String.eqb (str_replace "bar" "" Y) X
    then if mem X (keys items) then dict_getitem items X
         else Raise (ValueError (BareFlavNotInKeys X (keys items)))
    else Raise (ValueError (NotJoinedFlav (X ++ "+" ++ Y))).
Proof.
  intros Hd HX HY Hout. unfold find_energy_param. rewrite Hd.
  apply mem_not_In in Hout. rewrite Hout. cbn [negb].
  rewrite str_in_plus_app, str_split_pair by assumption.
  reflexivity.
Qed.

(** X6: an absent name [X+Y] with no further '+' resolves to an entry
    exactly when [Y] without its 'bar's is [X] and the mapping holds that
    entry under [X]. *)
Theorem find_energy_param_pair_iff (self : Stage)
    (items : list (string * pyobj)) (X Y : string) (entry : pyobj) :
  energy_param_dict self = Some (PyDict items) ->
  str_in "+" X = false -> str_in "+" Y = false ->
  ~ In (X ++ "+" ++ Y)%string (keys items) ->
  (find_energy_param self (X ++ "+" ++ Y) = Ok entry <->
   str_replace "bar" "" Y = X /\ getitem items X = Some entry).
Proof.
  intros Hd HX HY Hout.
  erewrite find_energy_param_pair by eassumption.
  unfold dict_getitem.
  destruct (String.eqb_spec (str_replace "bar" "" Y) X) as [Heq|Hne].
  - destruct (mem X (keys items)) eqn:Hin.
    + destruct (getitem items X) as [v|]; split.
      * intros [= ->]. auto.
      * intros [_ [= ->]]. reflexivity.
      * discriminate.
      * intros [_ [=]].
    + apply mem_not_In in Hin. split; [discriminate|].
      intros [_ Hget]. destruct Hin. eapply getitem_Some_In. exact Hget.
  - split; [discriminate | intros [Heq _]; contradiction].
Qed.

(** X7: the marker is not required and the order is: an absent name
    [X+X] whose halves hold neither '+' nor 'bar' resolves to the entry of
    [X]; an absent name [X+Y] whose second half holds no 'bar' and differs
    from the first is refused, so [nubar+nu] is. *)
Theorem find_energy_param_without_marker (self : Stage)
    (items : list (string * pyobj)) (X Y : string) :
  energy_param_dict self = Some (PyDict items) ->
  str_in "+" X = false -> str_in "+" Y = false ->
  str_in "bar" Y = false ->
  ~ In (X ++ "+" ++ Y)%string (keys items) ->
  (X = Y -> forall entry, getitem items X = Some entry ->
     find_energy_param self (X ++ "+" ++ Y) = Ok entry) /\
  (X <> Y ->
     find_energy_param self (X ++ "+" ++ Y)
     = Raise (ValueError (NotJoinedFlav (X ++ "+" ++ Y)))).
Proof.
  intros Hd HX HY Hbar Hout.
  erewrite find_energy_param_pair by eassumption.
  rewrite str_replace_absent by (discriminate || exact Hbar).
  split.
  - intros <- entry Hget. rewrite String.eqb_refl.
    assert (Hin : In X (keys items))
      by (eapply getitem_Some_In; exact Hget).
    apply mem_In in Hin. rewrite Hin. unfold dict_getitem. now rewrite Hget.
  - intros Hne. destruct (String.eqb_spec Y X); [congruence|reflexivity].
Qed.

End PairNames.

Section PairNamesExamples.

Import Demo.

Lemma find_energy_param_pair_iff_witness :
  find_energy_param (loaded_stage demo_param_dict) "nu+nubar" = Ok numu_entry
  <-> str_replace "bar" "" "nubar" = "nu"
      /\ getitem demo_items "nu" = Some numu_entry.
Proof.
  apply (@find_energy_param_pair_iff (loaded_stage demo_param_dict)
           demo_items "nu" "nubar" numu_entry);
    try reflexivity.
  simpl. intros [H|[H|[]]]; discriminate H.
Defined.

Lemma find_energy_param_without_marker_witness :
  find_energy_param (loaded_stage demo_param_dict) "nu+nu" = Ok numu_entry /\
  find_energy_param (loaded_stage demo_param_dict) "nubar+nu"
  = Raise (ValueError (NotJoinedFlav "nubar+nu")).
Proof.
  split.
  - apply (proj1 (@find_energy_param_without_marker
                    (loaded_stage demo_param_dict) demo_items "nu" "nu"
                    eq_refl eq_refl eq_refl eq_refl
                    ltac:(simpl; intros [H|[H|[]]]; discriminate H)));
      reflexivity.
  - apply (proj2 (@find_energy_param_without_marker
                    (loaded_stage demo_param_dict) demo_items "nubar" "nu"
                    eq_refl eq_refl eq_refl eq_refl
                    ltac:(simpl; intros [H|[H|[]]]; discriminate H))).
    discriminate.
Defined.

End PairNamesExamples.

(** ** Validation and what follows from it *)

Section ValidationMore.

Context `{FW : Framework}.

Lemma getdim_In (b : MultiDimBinning) (n : string) :
  In n (names b) ->
  exists d, getdim b n = Ok d /\ name d = n /\ In d b.
Proof.
  induction b as [|d b IH]; [intros []|].
  cbn [names map getdim]. intros Hin.
  destruct (String.eqb_spec (name d) n) as [Heq|Hne].
  - exists d. repeat split; [exact Heq | now left].
  - destruct Hin as [Heq|Hin]; [contradiction|].
    destruct (IH Hin) as [d' [Hget [Hname Hd']]].
    exists d'. repeat split; [exact Hget | exact Hname | now right].
Qed.

(** X8: [validate_binning] either returns or raises a configuration
    [ValueError]; the read of the first axis name never fails, an empty
    binning being refused before for its missing energy axis. *)
Theorem validate_binning_errors (self : Stage) :
  (validate_binning self = Ok tt
   \/ raises ConfigurationError (validate_binning self)) /\
  (input_binning self = [] ->
   validate_binning self = Raise (ValueError MissingEnergy)).
Proof.
  unfold validate_binning, raises. split.
  - destruct (mem "reco_energy" (names (input_binning self))) eqn:He;
      cbn [negb]; [|right; eexists; split; reflexivity].
    destruct (mem "reco_azimuth" (names (input_binning self)));
      [right; eexists; split; reflexivity|].
    destruct (names (input_binning self)) as [|first rest];
      [discriminate He|].
    destruct (negb (String.eqb first "reco_energy")
              && negb (String.eqb first "reco_coszen"));
      [right; eexists; split; reflexivity | now left].
  - intros ->. reflexivity.
Qed.

(** X9: on a validated binning the read of the energy centres cannot
    fail: there is an axis named [reco_energy] and the method works with
    its weighted centres; and the first axis is energy or zenith. *)
Theorem validated_binning_has_energy (self : Stage) :
  validate_binning self = Ok tt ->
  (exists energy,
     In energy (input_binning self) /\ name energy = "reco_energy" /\
     energy_centers self = Ok (weighted_centers energy)) /\
  (exists first rest,
     input_binning self = first :: rest /\
     (name first = "reco_energy" \/ name first = "reco_coszen")).
Proof.
  unfold validate_binning.
  destruct (mem "reco_energy" (names (input_binning self))) eqn:He;
    cbn [negb]; [|discriminate].
  destruct (mem "reco_azimuth" (names (input_binning self)));
    [discriminate|].
  intros Hfirst. split.
  - apply mem_In in He.
    destruct (getdim_In (input_binning self) "reco_energy" He)
      as [d [Hget [Hname Hin]]].
    exists d. repeat split; [exact Hin | exact Hname|].
    unfold energy_centers. now rewrite Hget.
  - destruct (input_binning self) as [|first rest]; [discriminate He|].
    exists first, rest. split; [reflexivity|].
    cbn [names map] in Hfirst.
    destruct (String.eqb_spec (name first) "reco_energy") as [E1|E1];
      [now left|].
    destruct (String.eqb_spec (name first) "reco_coszen") as [E2|E2];
      [now right | discriminate Hfirst].
Qed.

End ValidationMore.

Section ValidationMoreExamples.

Import Demo.

Lemma validate_binning_errors_witness :
  validate_binning (fresh_stage [numu_cc] ["numu_cc"] [] demo_param_dict)
  = Raise (ValueError MissingEnergy).
Proof.
  apply (proj2 (@validate_binning_errors
                  (fresh_stage [numu_cc] ["numu_cc"] [] demo_param_dict))).
  reflexivity.
Defined.

Lemma validated_binning_has_energy_witness :
  let self := fresh_stage [numu_cc] ["numu_cc"] [reco_coszen; reco_energy]
                demo_param_dict in
  (exists energy,
     In energy (input_binning self) /\ name energy = "reco_energy" /\
     energy_centers self = Ok (weighted_centers energy)) /\
  (exists first rest,
     input_binning self = first :: rest /\
     (name first = "reco_energy" \/ name first = "reco_coszen")).
Proof.
  intros self. apply (@validated_binning_has_energy self). reflexivity.
Defined.

End ValidationMoreExamples.

(** ** More on the assembly of the transforms *)

Section AssemblyMore.

Context `{FW : Framework}.

Lemma length_group_block (self : Stage) (g : NuFlavIntGroup)
    (a_trck a_cscd : ndarray) :
  length (group_block self g a_trck a_cscd)
  = 2 * length (group_inputs self g).
Proof. unfold group_block. rewrite length_app, !length_map. lia. Qed.

Lemma traverse_groups_length (self : Stage) (ecen : list Q)
    (groups : list NuFlavIntGroup) (tss : list (list BinnedTensorTransform)) :
  traverse (group_transforms self ecen) groups = Ok tss ->
  length (concat tss)
  = 2 * list_sum (map (fun g => length (group_inputs self g)) groups).
Proof.
  revert tss. induction groups as [|g groups IH]; intros tss H.
  - injection H as <-. reflexivity.
  - apply traverse_cons_Ok in H as [ts [rest [Hg [Hrest ->]]]].
    apply group_transforms_Ok in Hg as [items [a_t [a_c [_ [_ [_ ->]]]]]].
    cbn [concat map list_sum fold_right].
    rewrite length_app, length_group_block. fold (list_sum
      (map (fun g0 => length (group_inputs self g0)) groups)).
    rewrite (IH _ Hrest). lia.
Qed.

Lemma traverse_groups_fields (self : Stage) (ecen : list Q)
    (groups : list NuFlavIntGroup) (tss : list (list BinnedTensorTransform))
    (t : BinnedTensorTransform) :
  traverse (group_transforms self ecen) groups = Ok tss ->
  In t (concat tss) ->
  xform_input_binning t = input_binning self /\
  xform_output_binning t = input_binning self /\
  (xform_output_name t = suffix_channel (xform_input_names t) "trck"
   \/ xform_output_name t = suffix_channel (xform_input_names t) "cscd").
Proof.
  revert tss. induction groups as [|g groups IH]; intros tss H Ht.
  - injection H as <-. destruct Ht.
  - apply traverse_cons_Ok in H as [ts [rest [Hg [Hrest ->]]]].
    cbn [concat] in Ht. apply in_app_or in Ht as [Ht|Ht];
      [|exact (IH _ Hrest Ht)].
    apply group_transforms_Ok in Hg as [items [a_t [a_c [_ [_ [_ ->]]]]]].
    unfold group_block in Ht. apply in_app_or in Ht as [Ht|Ht];
      apply in_map_iff in Ht as [n [<- _]]; cbn; auto.
Qed.

Lemma traverse_fails_at {A B} (f : A -> result B) (pre post : list A)
    (x : A) (e : exn) :
  (forall y, In y pre -> succeeds (f y)) ->
  f x = Raise e ->
  traverse f (pre ++ x :: post) = Raise e.
Proof.
  intros Hpre Hx. induction pre as [|y pre IH]; cbn [app traverse].
  - now rewrite Hx.
  - destruct (Hpre y (or_introl eq_refl)) as [b ->]. cbn [bind].
    rewrite IH; [reflexivity|]. intros z Hz. apply Hpre. now right.
Qed.

Lemma load_pid_energy_param_source (self self' : Stage) (source : pyobj)
    (r : result unit) :
  load_pid_energy_param self source = (self', r) ->
  pid_energy_paramfile self' = pid_energy_paramfile self.
Proof.
  unfold load_pid_energy_param.
  destruct (match _energy_param_hash self with
            | Some h => Z.eqb (hash_obj source) h
            | None => false
            end).
  - now intros [= <- _].
  - destruct source; try (now intros [= <- _]).
    destruct (from_file s); now intros [= <- _].
Qed.

Lemma _compute_nominal_transforms_raises (self self1 : Stage)
    (ecen : list Q) (pre post : list NuFlavIntGroup) (g : NuFlavIntGroup)
    (e : exn) :
  energy_centers self = Ok ecen ->
  load_pid_energy_param self (pid_energy_paramfile self) = (self1, Ok tt) ->
  transform_groups self = pre ++ g :: post ->
  (forall g', In g' pre -> succeeds (group_transforms self1 ecen g')) ->
  group_transforms self1 ecen g = Raise e ->
  _compute_nominal_transforms self = (self1, Raise e).
Proof.
  intros Hcen Hload Hgroups Hpre Hg.
  rewrite _compute_nominal_transforms_spec, Hcen, Hload.
  destruct (load_pid_energy_param_setup _ _ Hload) as [Hg1 _].
  rewrite Hg1, Hgroups.
  now rewrite (traverse_fails_at _ pre post g Hpre Hg).
Qed.

(** X10: a returned TransformSet holds two transforms for every input of
    every group. *)
Theorem transforms_count (self self' : Stage) (T : TransformSet) :
  _compute_nominal_transforms self = (self', Ok T) ->
  length (transforms T) = expected_count self.
Proof.
  intros Hrun.
  apply _compute_nominal_transforms_Ok in Hrun
    as [ecen [tss [_ [Hload [Htrav ->]]]]].
  destruct (load_pid_energy_param_setup _ _ Hload) as [Hg1 [Hn1 _]].
  rewrite (traverse_groups_length _ _ _ Htrav). unfold expected_count.
  rewrite Hg1. unfold group_inputs. now rewrite Hn1.
Qed.

(** X11: every transform of a returned TransformSet has the stage's input
    binning both as input and as output binning, and its output name is
    its input name suffixed with [_trck] or [_cscd]. *)
Theorem transforms_keep_binning (self self' : Stage) (T : TransformSet)
    (t : BinnedTensorTransform) :
  _compute_nominal_transforms self = (self', Ok T) ->
  In t (transforms T) ->
  xform_input_binning t = input_binning self /\
  xform_output_binning t = input_binning self /\
  (xform_output_name t = (xform_input_names t ++ "_trck")%string
   \/ xform_output_name t = (xform_input_names t ++ "_cscd")%string).
Proof.
  intros Hrun Ht.
  apply _compute_nominal_transforms_Ok in Hrun
    as [ecen [tss [_ [Hload [Htrav HT]]]]].
  rewrite HT in Ht.
  destruct (load_pid_energy_param_setup _ _ Hload) as [_ [_ Hb1]].
  rewrite <- Hb1. eapply traverse_groups_fields; eassumption.
Qed.

(** X12: the method is all or nothing: the first group that fails makes
    the whole method raise that group's error, whatever the groups before
    it produced and whatever comes after it. *)
Theorem first_failing_group_decides (self self1 : Stage) (ecen : list Q)
    (pre post : list NuFlavIntGroup) (g : NuFlavIntGroup) (e : exn) :
  energy_centers self = Ok ecen ->
  load_pid_energy_param self (pid_energy_paramfile self) = (self1, Ok tt) ->
  transform_groups self = pre ++ g :: post ->
  (forall g', In g' pre -> succeeds (group_transforms self1 ecen g')) ->
  (find_energy_param self1 (group_str g) = Raise e
   \/ group_transforms self1 ecen g = Raise e) ->
  _compute_nominal_transforms self = (self1, Raise e).
Proof.
  intros Hcen Hload Hgroups Hpre Hfail.
  eapply _compute_nominal_transforms_raises; eauto.
  destruct Hfail as [Hfind|Hg]; [|exact Hg].
  unfold group_transforms, group_energy_param. now rewrite Hfind.
Qed.

(** X13: run again on the stage it returned, the method takes the cached
    mapping, reads nothing, leaves the stage as it is and returns the same
    TransformSet. *)
Theorem rerun_is_stable (self self1 : Stage) (T : TransformSet) :
  _compute_nominal_transforms self = (self1, Ok T) ->
  _compute_nominal_transforms self1 = (self1, Ok T).
Proof.
  intros Hrun.
  apply _compute_nominal_transforms_Ok in Hrun
    as [ecen [tss [Hcen [Hload [Htrav HT]]]]].
  destruct (load_pid_energy_param_setup _ _ Hload) as [_ [_ Hb1]].
  rewrite _compute_nominal_transforms_spec.
  assert (Hcen1 : energy_centers self1 = Ok ecen)
    by (unfold energy_centers in *; now rewrite Hb1).
  rewrite Hcen1, (load_pid_energy_param_source _ _ Hload).
  rewrite load_pid_energy_param_hit
    by exact (load_pid_energy_param_stores _ _ Hload).
  rewrite Htrav. cbn [bind]. destruct T as [ts]. cbn in HT. now subst ts.
Qed.

Lemma getdim_not_In (b : MultiDimBinning) (n : string) :
  ~ In n (names b) -> getdim b n = Raise (AttributeError "MultiDimBinning" n).
Proof.
  induction b as [|d b IH]; [reflexivity|].
  cbn [names map getdim]. intros Hout.
  destruct (String.eqb_spec (name d) n) as [Heq|Hne].
  - destruct Hout. now left.
  - apply IH. intros Hin. apply Hout. now right.
Qed.

(** X14: without an energy axis the method stops at its first line: it
    raises before the loader is called, so the stage is untouched, nothing
    is read and nothing is cached. *)
Theorem no_energy_axis_stops_first (self : Stage) :
  ~ In "reco_energy" (names (input_binning self)) ->
  exists e, _compute_nominal_transforms self = (self, Raise e).
Proof.
  intros Hout. unfold _compute_nominal_transforms.
  rewrite (getdim_not_In _ _ Hout). eauto.
Qed.

(** X15: an entry that is no mapping, and a track or cascade value that is
    no string, are refused with a [TypeError] showing the type met; the
    cascade value is only looked at once the track curve is evaluated. *)
Theorem type_errors (self self1 : Stage) (ecen : list Q)
    (pre post : list NuFlavIntGroup) (g : NuFlavIntGroup) (o : pyobj) :
  energy_centers self = Ok ecen ->
  load_pid_energy_param self (pid_energy_paramfile self) = (self1, Ok tt) ->
  transform_groups self = pre ++ g :: post ->
  (forall g', In g' pre -> succeeds (group_transforms self1 ecen g')) ->
  find_energy_param self1 (group_str g) = Ok o ->
  ((forall items, o <> PyDict items) ->
   _compute_nominal_transforms self
   = (self1, Raise (TypeError (ParamNotDict (type_of o))))) /\
  (forall items v,
     o = PyDict items -> keys items = ["trck"; "cscd"] ->
     getitem items "trck" = Some v -> (forall s, v <> PyStr s) ->
     _compute_nominal_transforms self
     = (self1, Raise (TypeError (ParamNotString (type_of v))))) /\
  (forall items v a,
     o = PyDict items -> keys items = ["trck"; "cscd"] ->
     channel_curve self1 ecen items "trck" = Ok a ->
     getitem items "cscd" = Some v -> (forall s, v <> PyStr s) ->
     _compute_nominal_transforms self
     = (self1, Raise (TypeError (ParamNotString (type_of v))))).
Proof.
  intros Hcen Hload Hgroups Hpre Hfind.
  assert (Hstop : forall e, group_transforms self1 ecen g = Raise e ->
            _compute_nominal_transforms self = (self1, Raise e))
    by (intros e He; eapply _compute_nominal_transforms_raises; eauto).
  split; [|split].
  - intros Hnot. apply Hstop.
    unfold group_transforms, group_energy_param. rewrite Hfind. cbn [bind].
    destruct o; try reflexivity. now contradiction (Hnot items).
  - intros items v -> Hkeys Hget Hnot. apply Hstop.
    rewrite group_transforms_block.
    assert (Hgep : group_energy_param self1 g = Ok items)
      by (apply group_energy_param_Ok; auto).
    rewrite Hgep. cbn [bind]. unfold channel_curve, dict_getitem.
    rewrite Hget. cbn [bind]. unfold evaluate_expression.
    destruct v; try reflexivity. now contradiction (Hnot s).
  - intros items v a -> Hkeys Htrck Hget Hnot. apply Hstop.
    rewrite group_transforms_block.
    assert (Hgep : group_energy_param self1 g = Ok items)
      by (apply group_energy_param_Ok; auto).
    rewrite Hgep. cbn [bind]. rewrite Htrck. cbn [bind].
    unfold channel_curve, dict_getitem.
    rewrite Hget. cbn [bind]. unfold evaluate_expression.
    destruct v; try reflexivity. now contradiction (Hnot s).
Qed.

End AssemblyMore.

Section OutputBinningIgnored.

Context `{FW : Framework}.

Lemma load_pid_energy_param_output (self : Stage) (source : pyobj)
    (b : MultiDimBinning) :
  load_pid_energy_param (set_output_binning self b) source
  = (set_output_binning (fst (load_pid_energy_param self source)) b,
     snd (load_pid_energy_param self source)).
Proof.
  unfold load_pid_energy_param. cbn [_energy_param_hash set_output_binning].
  destruct (match _energy_param_hash self with
            | Some h => Z.eqb (hash_obj source) h
            | None => false
            end); [reflexivity|].
  destruct source; try reflexivity.
  destruct (from_file s); reflexivity.
Qed.

(** X16: the transforms do not depend on the output binning: with any
    other output binning the method returns the same TransformSet, or
    raises the same error. *)
Theorem output_binning_is_ignored (self : Stage) (b : MultiDimBinning) :
  snd (_compute_nominal_transforms (set_output_binning self b))
  = snd (_compute_nominal_transforms self).
Proof.
  rewrite !_compute_nominal_transforms_spec.
  change (energy_centers (set_output_binning self b))
    with (energy_centers self).
  destruct (energy_centers self) as [ecen|e]; [|reflexivity].
  change (pid_energy_paramfile (set_output_binning self b))
    with (pid_energy_paramfile self).
  rewrite load_pid_energy_param_output.
  destruct (load_pid_energy_param self (pid_energy_paramfile self))
    as [self1 [[]|e]]; [|reflexivity].
  cbn [fst snd transform_groups set_output_binning].
  rewrite traverse_ext_in with (f' := group_transforms self1 ecen);
    [reflexivity|].
  intros g _. now rewrite !group_transforms_block.
Qed.

End OutputBinningIgnored.

Section AssemblyMoreExamples.

Import Demo MoreDemo.
#[local] Existing Instance demo_framework.

Lemma transforms_count_witness :
  exists self' T,
    _compute_nominal_transforms overlap_stage = (self', Ok T) /\
    length (transforms T) = 6.
Proof.
  destruct (_compute_nominal_transforms overlap_stage) as [self' [T|e]]
    eqn:Hrun; [|vm_compute in Hrun; discriminate Hrun].
  exists self', T. split; [reflexivity|].
  exact (@transforms_count demo_framework overlap_stage self' T Hrun).
Defined.

Lemma transforms_keep_binning_witness :
  let t := make_xform numu_stage "cscd"
             (array1 [0.1%Q; 0.1%Q; 0.1%Q]) "numu_cc" in
  xform_input_binning t = [reco_energy] /\
  xform_output_binning t = [reco_energy] /\
  (xform_output_name t = "numu_cc_trck"
   \/ xform_output_name t = "numu_cc_cscd").
Proof.
  intros t.
  destruct (_compute_nominal_transforms numu_stage) as [self' [T|e]]
    eqn:Hrun; [|vm_compute in Hrun; discriminate Hrun].
  apply (@transforms_keep_binning demo_framework numu_stage self' T t Hrun).
  vm_compute in Hrun. injection Hrun as _ <-. simpl. auto.
Defined.

Lemma first_failing_group_decides_witness :
  snd (_compute_nominal_transforms missing_stage)
  = Raise (ValueError (FlavNotInKeys "nutau_cc" ["numu_cc"])).
Proof.
  erewrite (@first_failing_group_decides demo_framework missing_stage
              _ [1%Q; 10%Q; 100%Q] [numu_cc] [] nutau_cc
              (ValueError (FlavNotInKeys "nutau_cc" ["numu_cc"]))
              eq_refl eq_refl eq_refl).
  - reflexivity.
  - intros g' [<-|[]]. eexists. reflexivity.
  - left. reflexivity.
Defined.

Lemma rerun_is_stable_witness :
  exists self1 T,
    _compute_nominal_transforms numu_stage = (self1, Ok T) /\
    _compute_nominal_transforms self1 = (self1, Ok T).
Proof.
  destruct (_compute_nominal_transforms numu_stage) as [self1 [T|e]]
    eqn:Hrun; [|vm_compute in Hrun; discriminate Hrun].
  exists self1, T. split; [reflexivity|].
  exact (@rerun_is_stable demo_framework numu_stage self1 T Hrun).
Defined.

Lemma no_energy_axis_stops_first_witness :
  let self := fresh_stage [numu_cc] ["numu_cc"] [reco_coszen]
                (PyStr "pid/pid_energy_param.json") in
  exists e, _compute_nominal_transforms self = (self, Raise e).
Proof.
  intros self. apply (@no_energy_axis_stops_first demo_framework self).
  simpl. intros [H|[]]. discriminate H.
Defined.

Lemma type_errors_witness :
  snd (_compute_nominal_transforms number_stage)
  = Raise (TypeError (ParamNotString TNum)).
Proof.
  destruct (@type_errors demo_framework number_stage
              _ [1%Q; 10%Q; 100%Q] [numu_cc] [] nu_group
              (PyDict [("trck", PyNum 0.9%Q);
                       ("cscd", PyStr "lambda E: 0.1 + 0*E")])
              eq_refl eq_refl eq_refl) as [_ [Htrck _]].
  - intros g' [<-|[]]. eexists. reflexivity.
  - reflexivity.
  - rewrite (Htrck _ (PyNum 0.9%Q) eq_refl eq_refl eq_refl);
      [reflexivity | discriminate].
Defined.

End AssemblyMoreExamples.

(** ** More on the curve array *)

Section CurveMore.

Context `{FW : Framework}.

Lemma length_flat_map_repeat (v : list Q) (c : nat) :
  length (flat_map (fun x => repeat x c) v) = length v * c.
Proof.
  induction v as [|x v IH]; [reflexivity|].
  cbn [flat_map]. rewrite length_app, repeat_length, IH. simpl. lia.
Qed.

Lemma getdim_Ok_mem (b : MultiDimBinning) (n : string) (d : OneDimBinning) :
  getdim b n = Ok d -> mem n (names b) = true.
Proof.
  induction b as [|d' b IH]; [discriminate|].
  cbn [getdim]. intros H. unfold mem, names in *. cbn [map existsb].
  destruct (String.eqb_spec (name d') n) as [<-|Hne].
  - now rewrite String.eqb_refl.
  - rewrite (IH H). apply orb_true_r.
Qed.

Lemma well_formed_transpose (axes : list nat) (a : ndarray) :
  well_formed (transpose axes a).
Proof.
  unfold well_formed, transpose. cbn [data shape].
  now rewrite length_map, length_indices.
Qed.

(** X17: with a zenith axis the curve must fill the energy x zenith grid:
    if the callable returns a number of values other than the number of
    energy centres (and there is at least one zenith bin) the reshape
    raises a [ValueError]; on an energy-only binning what the callable
    returns, of any length and shape, is passed on unchecked. *)
Theorem curve_array_wrong_length (self : Stage) (ecen : list Q)
    (pid1d : ndarray) (f : callable) :
  f ecen = Ok pid1d ->
  (mem "reco_coszen" (names (input_binning self)) = false ->
   curve_array self ecen f = Ok pid1d) /\
  (forall coszen,
     getdim (input_binning self) "reco_coszen" = Ok coszen ->
     let nz := length (weighted_centers coszen) in
     (length (data pid1d) <> length ecen -> nz <> 0 ->
      curve_array self ecen f
      = Raise (ValueError (ReshapeSize (length (data pid1d) * nz)
                             [length ecen; nz]))) /\
     (length (data pid1d) = length ecen \/ nz = 0 ->
      succeeds (curve_array self ecen f))).
Proof.
  intros Hf. unfold curve_array. rewrite Hf. cbn [bind]. split.
  - intros Hno. now rewrite Hno.
  - intros coszen Hget. set (nz := length (weighted_centers coszen)).
    assert (Hmem : mem "reco_coszen" (names (input_binning self)) = true)
      by (eapply getdim_Ok_mem; exact Hget).
    rewrite Hmem, Hget.
    cbn [bind]. fold nz. unfold np_reshape.
    cbn [np_repeat array1 data size_of fold_right].
    rewrite length_flat_map_repeat, Nat.mul_1_r. split.
    + intros Hlen Hnz.
      destruct (Nat.eqb_spec (length (data pid1d) * nz) (length ecen * nz))
        as [Heq|Hne]; [|reflexivity].
      apply Nat.mul_cancel_r in Heq; [contradiction | exact Hnz].
    + intros Hok.
      assert (Heq : length (data pid1d) * nz = length ecen * nz)
        by (destruct Hok as [->| ->]; lia).
      rewrite Heq, Nat.eqb_refl. cbn [bind].
      destruct (names (input_binning self)) as [|first rest];
        [discriminate Hmem|].
      destruct (String.eqb first "reco_coszen"); eexists; reflexivity.
Qed.

(** X18: with a zenith axis in the binning, a curve array that is returned
    holds as many values as its shape says and has exactly two axes,
    whatever the callable returned and however many axes the binning has;
    without a zenith axis it is what the callable returned, as it is: a
    plain number stays a plain number. *)
Theorem curve_array_well_formed (self : Stage) (ecen : list Q)
    (f : callable) (a : ndarray) :
  curve_array self ecen f = Ok a ->
  if mem "reco_coszen" (names (input_binning self))
  then well_formed a /\ ndim a = 2
  else f ecen = Ok a.
Proof.
  unfold curve_array. intros H.
  apply bind_Ok_inv in H as [pid1d [Hf H]].
  destruct (mem "reco_coszen" (names (input_binning self))).
  - apply bind_Ok_inv in H as [cz [_ H]].
    apply bind_Ok_inv in H as [pid2d [Hre H]].
    unfold np_reshape in Hre.
    destruct (Nat.eqb_spec
                (length (data (np_repeat pid1d
                                 (length (weighted_centers cz)))))
                (size_of [length ecen; length (weighted_centers cz)]))
      as [Heq|]; [|discriminate].
    injection Hre as <-.
    destruct (names (input_binning self)) as [|first rest]; [discriminate|].
    destruct (String.eqb first "reco_coszen"); injection H as <-.
    + split; [apply well_formed_transpose | reflexivity].
    + split; [exact Heq | reflexivity].
  - injection H as <-. exact Hf.
Qed.

Lemma string_length_append (a b : string) :
  String.length (a ++ b) = String.length a + String.length b.
Proof. induction a as [|c a IH]; simpl; [reflexivity | now rewrite IH]. Qed.

Lemma append_inj_same_length (a b x y : string) :
  (a ++ x = b ++ y)%string -> String.length x = String.length y ->
  a = b /\ x = y.
Proof.
  revert b. induction a as [|c a IH]; intros [|d b] Heq Hlen;
    cbn [append] in Heq.
  - auto.
  - exfalso. rewrite Heq in Hlen. cbn [String.length] in Hlen.
    rewrite string_length_append in Hlen. lia.
  - exfalso. rewrite <- Heq in Hlen. cbn [String.length] in Hlen.
    rewrite string_length_append in Hlen. lia.
  - injection Heq as -> Heq. destruct (IH b Heq Hlen) as [-> ->]. auto.
Qed.

(** X19: output names are unambiguous: over the two channels
    [suffix_channel] is injective, so two transforms with one output name
    have the same input and the same channel. *)
Theorem suffix_channel_injective (n1 n2 sig1 sig2 : string) :
  In sig1 output_channels -> In sig2 output_channels ->
  suffix_channel n1 sig1 = suffix_channel n2 sig2 ->
  n1 = n2 /\ sig1 = sig2.
Proof.
  intros H1 H2 Heq. unfold suffix_channel in Heq.
  apply append_inj_same_length in Heq as [Hn Hs].
  - split; [exact Hn|]. now injection Hs.
  - destruct H1 as [<-|[<-|[]]]; destruct H2 as [<-|[<-|[]]]; reflexivity.
Qed.

End CurveMore.

Section CurveMoreExamples.

Import Demo MoreDemo.

(** A function giving one value for three centres: refused on the plane,
    passed on along the energy axis alone. *)
Lemma curve_array_wrong_length_witness :
  curve_array plane_stage [1%Q; 10%Q; 100%Q] (fun _ => Ok (array1 [0.5%Q]))
  = Raise (ValueError (ReshapeSize 2 [3; 2])) /\
  curve_array numu_stage [1%Q; 10%Q; 100%Q] (fun _ => Ok (array1 [0.5%Q]))
  = Ok (array1 [0.5%Q]).
Proof.
  destruct (@curve_array_wrong_length plane_stage [1%Q; 10%Q; 100%Q]
              (array1 [0.5%Q]) (fun _ => Ok (array1 [0.5%Q])) eq_refl)
    as [_ Hplane].
  destruct (@curve_array_wrong_length numu_stage [1%Q; 10%Q; 100%Q]
              (array1 [0.5%Q]) (fun _ => Ok (array1 [0.5%Q])) eq_refl)
    as [Hline _].
  split.
  - apply (proj1 (Hplane reco_coszen eq_refl)); simpl; lia.
  - apply Hline. reflexivity.
Defined.

Lemma curve_array_well_formed_witness :
  let a := T {| shape := [3; 2];
                data := [1%Q; 1%Q; 10%Q; 10%Q; 100%Q; 100%Q] |} in
  well_formed a /\ ndim a = 2.
Proof.
  intros a.
  exact (@curve_array_well_formed
           (fresh_stage [numu_cc] ["numu_cc"] [reco_coszen; reco_energy]
              demo_param_dict)
           [1%Q; 10%Q; 100%Q] (fun E => Ok (array1 E)) a eq_refl).
Defined.

Lemma suffix_channel_injective_witness :
  "numu_cc" = "numu_cc" /\ "trck" = "trck".
Proof.
  apply (@suffix_channel_injective "numu_cc" "numu_cc" "trck" "trck");
    [simpl; auto | simpl; auto | reflexivity].
Defined.

End CurveMoreExamples.

(** ** More on the output assembly *)

Section RecombinationMore.

Context `{FW : Framework}.

Lemma get_outputs_output_binning (self self1 : Stage)
    (inputs : option MapSet) (outputs : MapSet) :
  base_get_outputs (set_output_binning self (input_binning self)) inputs
  = (self1, Ok outputs) ->
  output_binning (fst (get_outputs self inputs))
  = final_output_binning (output_binning self).
Proof.
  intros Hbase. unfold get_outputs, final_output_binning. rewrite Hbase.
  now destruct (mem "pid" (names (output_binning self))).
Qed.

Lemma mem_pid_final (b : MultiDimBinning) :
  mem "pid" (names (final_output_binning b)) = true.
Proof.
  unfold final_output_binning.
  destruct (mem "pid" (names b)) eqn:Hpid; [exact Hpid|].
  unfold mem, names, binning_add. rewrite map_app, existsb_app.
  cbn. apply orb_true_r.
Qed.

(** X20: once [get_outputs] has got the base class's outputs, the stage's
    output binning has a [pid] axis; a further call on that stage finds it
    and leaves the output binning as it is: the synthetic axis is added
    once, not once per call. *)
Theorem get_outputs_adds_pid_once (self self1 : Stage)
    (inputs : option MapSet) (outputs : MapSet) :
  base_get_outputs (set_output_binning self (input_binning self)) inputs
  = (self1, Ok outputs) ->
  let after := fst (get_outputs self inputs) in
  In "pid" (names (output_binning after)) /\
  forall inputs' self2 outputs',
    base_get_outputs (set_output_binning after (input_binning after)) inputs'
    = (self2, Ok outputs') ->
    output_binning (fst (get_outputs after inputs')) = output_binning after.
Proof.
  intros Hbase after.
  assert (Hafter : output_binning after
                   = final_output_binning (output_binning self))
    by (eapply get_outputs_output_binning; exact Hbase).
  split.
  - apply mem_In. rewrite Hafter. apply mem_pid_final.
  - intros inputs' self2 outputs' Hbase2.
    erewrite get_outputs_output_binning by exact Hbase2.
    unfold final_output_binning at 1.
    rewrite Hafter at 1. now rewrite mem_pid_final.
Qed.

Lemma map_nth_seq_app (pre s : list nat) :
  map (fun k => nth k (pre ++ s) 0) (seq (length pre) (length s)) = s.
Proof.
  revert pre. induction s as [|y s IH]; intros pre; [reflexivity|].
  cbn [length seq map]. rewrite nth_middle. f_equal.
  specialize (IH (pre ++ [y])).
  rewrite <- app_assoc, length_app in IH. cbn [app length] in IH.
  now rewrite Nat.add_1_r in IH.
Qed.

(** The stack of two arrays of shape [s], rolled. *)
Lemma stack_roll_shape (cscd trck : ndarray) :
  shape cscd = shape trck ->
  (2 <= ndim cscd ->
   exists hist,
     (stacked <- np_array2 cscd trck ;; np_rollaxis stacked 0 3) = Ok hist /\
     shape hist = rolled_shape (shape cscd) /\ well_formed hist) /\
  (ndim cscd < 2 ->
   (stacked <- np_array2 cscd trck ;; np_rollaxis stacked 0 3)
   = Raise (ValueError (RollaxisStart 3 (ndim cscd + 2)))).
Proof.
  intros Hshape. unfold np_array2. rewrite <- Hshape, shape_eqb_refl.
  cbn [bind]. unfold np_rollaxis, ndim. cbn [shape length].
  rewrite Nat.add_1_r.
  destruct (shape cscd) as [|a [|b rest]].
  - split; [cbn; lia|]. intros _. reflexivity.
  - split; [cbn; lia|]. intros _. reflexivity.
  - split; [|cbn [length]; lia]. intros _.
    cbn [length Nat.ltb Nat.leb negb Nat.sub Nat.eqb seq list_remove].
    eexists. split; [reflexivity|]. split; [|apply well_formed_transpose].
    unfold list_insert, rolled_shape.
    cbn [transpose shape firstn skipn app map nth]. do 3 f_equal.
    exact (map_nth_seq_app [2; a; b] rest).
Qed.

(** X21: whether a name's two channel histograms can be put together is
    a matter of their number of axes alone: with two or more the map is
    built, the classification axis of size 2 sitting right after their
    first two axes, which is last only when there are just two; with fewer
    than two the recombination raises a [ValueError]. *)
Theorem recombined_map_by_ndim (self : Stage) (outputs : MapSet)
    (n : string) (cscd trck : Map) :
  mapset_getitem (maps outputs) (n ++ "_cscd")%string = Ok cscd ->
  mapset_getitem (maps outputs) (n ++ "_trck")%string = Ok trck ->
  shape (map_hist cscd) = shape (map_hist trck) ->
  (2 <= ndim (map_hist cscd) ->
   exists m,
     recombined_map self outputs n = Ok m /\
     map_name m = n /\ map_binning m = output_binning self /\
     shape (map_hist m) = rolled_shape (shape (map_hist cscd)) /\
     well_formed (map_hist m)) /\
  (ndim (map_hist cscd) = 2 ->
   rolled_shape (shape (map_hist cscd)) = shape (map_hist cscd) ++ [2]) /\
  (ndim (map_hist cscd) < 2 ->
   recombined_map self outputs n
   = Raise (ValueError (RollaxisStart 3 (ndim (map_hist cscd) + 2)))).
Proof.
  intros Hc Ht Hshape.
  destruct (stack_roll_shape (map_hist cscd) (map_hist trck) Hshape)
    as [Hbig Hsmall].
  unfold recombined_map. rewrite Hc, Ht. cbn [bind].
  split; [|split].
  - intros Hdim. destruct (Hbig Hdim) as [hist [Hroll [Hs Hwf]]].
    destruct (np_array2 (map_hist cscd) (map_hist trck)) as [st|e];
      cbn [bind] in *; [|discriminate].
    rewrite Hroll. cbn [bind]. eexists. split; [reflexivity|]. auto.
  - unfold ndim, rolled_shape.
    destruct (shape (map_hist cscd)) as [|a [|b [|c s]]]; try discriminate.
    reflexivity.
  - intros Hdim. specialize (Hsmall Hdim).
    destruct (np_array2 (map_hist cscd) (map_hist trck)) as [st|e];
      cbn [bind] in *; [now rewrite Hsmall | now injection Hsmall as ->].
Qed.

(** X22: for 2-D channel histograms the recombined histogram holds, at
    every bin, the cascade content at classification index 0 and the track
    content at index 1. *)
Theorem recombined_map_slices (self : Stage) (outputs : MapSet)
    (n : string) (cscd trck : Map) (r k : nat) :
  mapset_getitem (maps outputs) (n ++ "_cscd")%string = Ok cscd ->
  mapset_getitem (maps outputs) (n ++ "_trck")%string = Ok trck ->
  shape (map_hist cscd) = [r; k] -> shape (map_hist trck) = [r; k] ->
  well_formed (map_hist cscd) -> well_formed (map_hist trck) ->
  exists m,
    recombined_map self outputs n = Ok m /\
    shape (map_hist m) = [r; k; 2] /\
    forall i j, i < r -> j < k ->
      item (map_hist m) [i; j; 0] = item (map_hist cscd) [i; j]
      /\ item (map_hist m) [i; j; 1] = item (map_hist trck) [i; j].
Proof.
  intros Hc Ht Hsc Hst Hwc Hwt.
  destruct (stack_roll_2d Hsc Hst Hwc Hwt)
    as [hist [Hroll [Hshape Hitems]]].
  unfold recombined_map. rewrite Hc, Ht. cbn [bind].
  destruct (np_array2 (map_hist cscd) (map_hist trck)) as [st|e];
    cbn [bind] in *; [|discriminate].
  rewrite Hroll. cbn [bind]. eexists. split; [reflexivity|].
  split; [exact Hshape | exact Hitems].
Qed.

End RecombinationMore.

Section RecombinationMoreExamples.

Import Demo MoreDemo.
#[local] Existing Instance pipeline_framework.

Lemma get_outputs_adds_pid_once_witness :
  let after := fst (get_outputs plane_stage (Some plane_inputs)) in
  names (output_binning after) = ["reco_energy"; "reco_coszen"; "pid"] /\
  In "pid" (names (output_binning after)) /\
  output_binning (fst (get_outputs after (Some plane_inputs)))
  = output_binning after.
Proof.
  intros after.
  destruct (base_get_outputs
              (set_output_binning plane_stage (input_binning plane_stage))
              (Some plane_inputs)) as [s1 [outputs|e]] eqn:Hbase;
    [|vm_compute in Hbase; discriminate Hbase].
  destruct (@get_outputs_adds_pid_once pipeline_framework plane_stage s1
              (Some plane_inputs) outputs Hbase) as [Hpid Hagain].
  split; [reflexivity|]. split; [exact Hpid|].
  destruct (base_get_outputs
              (set_output_binning after (input_binning after))
              (Some plane_inputs)) as [s2 [outputs2|e]] eqn:Hbase2;
    [|vm_compute in Hbase2; discriminate Hbase2].
  exact (Hagain (Some plane_inputs) s2 outputs2 Hbase2).
Defined.

Lemma recombined_map_by_ndim_witness :
  (exists m,
     recombined_map plane_stage cube_outputs "nu" = Ok m /\
     shape (map_hist m) = [2; 2; 2; 3]) /\
  recombined_map plane_stage line_outputs "nu"
  = Raise (ValueError (RollaxisStart 3 3)).
Proof.
  split.
  - destruct (proj1 (@recombined_map_by_ndim plane_stage cube_outputs "nu"
                       _ _ eq_refl eq_refl eq_refl))
      as [m [Hm [_ [_ [Hshape _]]]]]; [unfold ndim; simpl; lia|].
    exists m. split; [exact Hm | exact Hshape].
  - apply (proj2 (proj2 (@recombined_map_by_ndim plane_stage line_outputs
                           "nu" _ _ eq_refl eq_refl eq_refl))).
    unfold ndim. simpl. lia.
Defined.

Lemma recombined_map_slices_witness :
  exists m,
    recombined_map plane_stage square_outputs "nu" = Ok m /\
    shape (map_hist m) = [2; 2; 2] /\
    item (map_hist m) [1; 0; 0] = Some 3%Q /\
    item (map_hist m) [1; 0; 1] = Some 7%Q.
Proof.
  destruct (@recombined_map_slices plane_stage square_outputs "nu"
              _ _ 2 2 eq_refl eq_refl eq_refl eq_refl eq_refl eq_refl)
    as [m [Hm [Hshape Hitems]]].
  exists m. split; [exact Hm|]. split; [exact Hshape|].
  destruct (Hitems 1 0) as [H0 H1]; [lia | lia |].
  split; [exact H0 | exact H1].
Defined.

End RecombinationMoreExamples.

(** ** The input names handed to the constructor *)

Section InputNames.

Lemma prefix_char (c : ascii) (s : string) :
  prefix (String c EmptyString) s
  = match s with
    | String a _ => Ascii.eqb a c
    | EmptyString => false
    end.
Proof.
  destruct s as [|a s]; [reflexivity|].
  cbn [prefix]. destruct (ascii_dec c a) as [<-|Hne].
  - rewrite Ascii.eqb_refl. now destruct s.
  - symmetry. apply Ascii.eqb_neq. congruence.
Qed.

Lemma str_in_char (c a : ascii) (s : string) :
  str_in (String c EmptyString) (String a s)
  = Ascii.eqb a c || str_in (String c EmptyString) s.
Proof. cbn [str_in]. now rewrite prefix_char. Qed.

(** Replacing a character by nothing leaves none of it. *)
Lemma str_replace_char_gone (c : ascii) (s : string) :
  str_in (String c EmptyString)
    (str_replace (String c EmptyString) EmptyString s) = false.
Proof.
  unfold str_replace. induction s as [|a s IH]; [reflexivity|].
  cbn [replace_from String.length Nat.sub]. rewrite prefix_char.
  destruct (Ascii.eqb a c) eqn:E.
  - cbn [append]. exact IH.
  - rewrite str_in_char, E. exact IH.
Qed.

Lemma str_split_nonempty (sep : ascii) (s : string) : str_split sep s <> [].
Proof.
  induction s as [|a s IH]; cbn [str_split]; [discriminate|].
  destruct (Ascii.eqb a sep); [discriminate|].
  destruct (str_split sep s); discriminate.
Qed.

(** No part of a split holds the separator, nor a character the whole
    string did not hold. *)
Lemma str_split_parts (sep b : ascii) (s p : string) :
  In p (str_split sep s) ->
  str_in (String sep EmptyString) p = false /\
  (str_in (String b EmptyString) s = false ->
   str_in (String b EmptyString) p = false).
Proof.
  revert p. induction s as [|a s IH]; intros p; cbn [str_split].
  - intros [<-|[]]. auto.
  - destruct (Ascii.eqb a sep) eqn:E.
    + intros [<-|Hin]; [auto|].
      destruct (IH p Hin) as [H1 H2]. split; [exact H1|].
      rewrite str_in_char. intros H. apply orb_false_iff in H as [_ H]. auto.
    + destruct (str_split sep s) as [|w ws] eqn:Hsplit.
      * intros [<-|[]]. rewrite !str_in_char, E. cbn. split; [reflexivity|].
        intros H. apply orb_false_iff in H as [-> _]. reflexivity.
      * intros [<-|Hin].
        -- destruct (IH w (or_introl eq_refl)) as [H1 H2].
           rewrite !str_in_char, E, H1. split; [reflexivity|].
           intros H. apply orb_false_iff in H as [-> H]. now rewrite (H2 H).
        -- destruct (IH p (or_intror Hin)) as [H1 H2].
           split; [exact H1|]. rewrite str_in_char.
           intros H. apply orb_false_iff in H as [_ H]. auto.
Qed.

(** Joining the parts with the separator gives the string back. *)
Lemma str_join_split (sep : ascii) (s : string) :
  str_join (String sep EmptyString) (str_split sep s) = s.
Proof.
  induction s as [|a s IH]; [reflexivity|]. cbn [str_split].
  destruct (Ascii.eqb_spec a sep) as [->|Hne].
  - pose proof (str_split_nonempty sep s) as Hne.
    destruct (str_split sep s) as [|w ws]; [contradiction|].
    cbn [str_join append] in *. now rewrite IH.
  - pose proof (str_split_nonempty sep s) as Hnonempty.
    destruct (str_split sep s) as [|w [|x ws]]; [contradiction| |].
    + cbn [str_join] in *. now rewrite IH.
    + cbn [str_join append] in *. now rewrite IH.
Qed.

(** X23: a string of input names always yields at least one name (the
    empty string yields one empty name); no name holds a blank or a comma;
    and the names joined by commas are the string without its blanks. *)
Theorem split_input_names_clean (s : string) :
  split_input_names (NamesString s) <> [] /\
  split_input_names (NamesString EmptyString) = [EmptyString] /\
  (forall n, In n (split_input_names (NamesString s)) ->
     str_in " " n = false /\ str_in "," n = false) /\
  str_join "," (split_input_names (NamesString s)) = str_replace " " "" s.
Proof.
  unfold split_input_names.
  split; [apply str_split_nonempty|]. split; [reflexivity|]. split.
  - intros n Hn.
    destruct (str_split_parts ","%char " "%char _ n Hn) as [Hcomma Hblank].
    split; [|exact Hcomma]. apply Hblank. apply str_replace_char_gone.
  - apply str_join_split.
Qed.

End InputNames.

Section InputNamesExamples.

Lemma split_input_names_clean_witness :
  split_input_names (NamesString "nue_cc, numu_cc ,nuall_nc")
  = ["nue_cc"; "numu_cc"; "nuall_nc"] /\
  str_in " " "numu_cc" = false /\ str_in "," "numu_cc" = false.
Proof.
  split; [reflexivity|].
  apply (proj1 (proj2 (proj2
           (split_input_names_clean "nue_cc, numu_cc ,nuall_nc")))).
  simpl. auto.
Defined.

End InputNamesExamples.

(** ** Transforms and the names the output assembly looks up *)

Section NamesAgree.

Context `{FW : Framework}.

Lemma traverse_In {A B} (f : A -> result B) (l : list A) (ys : list B)
    (x : A) :
  traverse f l = Ok ys -> In x l -> exists y, In y ys /\ f x = Ok y.
Proof.
  revert ys. induction l as [|a l IH]; intros ys H Hin; [destruct Hin|].
  apply traverse_cons_Ok in H as [y [ys' [Ha [Hrest ->]]]].
  destruct Hin as [<-|Hin].
  - exists y. split; [now left | exact Ha].
  - destruct (IH _ Hrest Hin) as [y' [Hy' Hx]].
    exists y'. split; [now right | exact Hx].
Qed.

(** X24: for an input covered by some group the returned TransformSet
    holds transforms to exactly the two names the output assembly looks
    up, the input name followed by [_cscd] and by [_trck]; for a name
    covered by no group it holds no transform to either of them. *)
Theorem transforms_feed_output_assembly (self self' : Stage)
    (T : TransformSet) (n : string) :
  _compute_nominal_transforms self = (self', Ok T) ->
  (In n (input_names self) -> grouped self n = true ->
   (exists t, In t (transforms T) /\ xform_input_names t = n /\
              xform_output_name t = (n ++ "_cscd")%string) /\
   (exists t, In t (transforms T) /\ xform_input_names t = n /\
              xform_output_name t = (n ++ "_trck")%string)) /\
  (grouped self n = false ->
   forall t, In t (transforms T) ->
     xform_output_name t <> (n ++ "_cscd")%string /\
     xform_output_name t <> (n ++ "_trck")%string).
Proof.
  intros Hrun.
  apply _compute_nominal_transforms_Ok in Hrun
    as [ecen [tss [_ [Hload [Htrav HT]]]]].
  destruct (load_pid_energy_param_setup _ _ Hload) as [Hg1 [Hn1 _]].
  rewrite HT. split.
  - intros Hin Hgrouped. unfold grouped in Hgrouped.
    apply existsb_exists in Hgrouped as [g [Hg Hcontains]].
    rewrite <- Hg1 in Hg.
    destruct (traverse_In _ _ g Htrav Hg) as [ts [Hts Hblock]].
    apply group_transforms_Ok in Hblock
      as [items [a_t [a_c [_ [_ [_ ->]]]]]].
    assert (Hn : In n (group_inputs self' g))
      by (unfold group_inputs; apply filter_In; rewrite Hn1; auto).
    split.
    + exists (make_xform self' "cscd" a_c n). split; [|split; reflexivity].
      apply in_concat. eexists. split; [exact Hts|].
      unfold group_block. apply in_or_app. right. now apply in_map.
    + exists (make_xform self' "trck" a_t n). split; [|split; reflexivity].
      apply in_concat. eexists. split; [exact Hts|].
      unfold group_block. apply in_or_app. left. now apply in_map.
  - intros Hnone t Ht.
    destruct (traverse_groups_cover _ _ _ Htrav) as [Hcover _].
    destruct (Hcover t Ht) as [_ Hgrouped]. rewrite Hg1 in Hgrouped.
    assert (Hname : xform_output_name t
                    = suffix_channel (xform_input_names t) "trck"
                    \/ xform_output_name t
                       = suffix_channel (xform_input_names t) "cscd")
      by (eapply traverse_groups_fields; eassumption).
    unfold suffix_channel in Hname.
    assert (Hne : forall sig sig',
              String.length sig = String.length sig' ->
              xform_output_name t = (xform_input_names t ++ "_" ++ sig)%string ->
              xform_output_name t <> (n ++ "_" ++ sig')%string).
    { intros sig sig' Hlen Hout Heq. rewrite Hout in Heq.
      apply append_inj_same_length in Heq as [Heq _];
        [|cbn [append String.length]; now rewrite Hlen].
      unfold grouped in Hnone. rewrite Heq in Hgrouped. congruence. }
    destruct Hname as [Hout|Hout]; split; eapply Hne; try exact Hout;
      reflexivity.
Qed.

End NamesAgree.

Section NamesAgreeExamples.

Import Demo.
#[local] Existing Instance demo_framework.

Lemma transforms_feed_output_assembly_witness :
  exists self' T,
    _compute_nominal_transforms overlap_stage = (self', Ok T) /\
    (exists t, In t (transforms T) /\ xform_input_names t = "nue_cc" /\
               xform_output_name t = "nue_cc_cscd") /\
    (forall t, In t (transforms T) -> xform_output_name t <> "muons_cscd").
Proof.
  destruct (_compute_nominal_transforms overlap_stage) as [self' [T|e]]
    eqn:Hrun; [|vm_compute in Hrun; discriminate Hrun].
  exists self', T. split; [reflexivity|]. split.
  - apply (proj1 (@transforms_feed_output_assembly demo_framework
                    overlap_stage self' T "nue_cc" Hrun));
      [simpl; auto | reflexivity].
  - intros t Ht.
    apply (proj2 (@transforms_feed_output_assembly demo_framework
                    overlap_stage self' T "muons" Hrun) eq_refl t Ht).
Defined.

End NamesAgreeExamples.
